(** * sparkyRecipValidate: a shallow embedding of [sparkyRecipValidate.py]

    The script reads e-mail addresses from a CSV source, optionally checks
    their syntax ([processFile], first pass), asks a remote validation
    endpoint about each of them ([validateRecipients], second pass) and
    writes what comes back through a [csv.DictWriter].

    What the script does to the outside world (requests, lines on standard
    error and standard output, rows handed to the CSV writer, sleeps, the
    progress bar, seeks and closes) is recorded as a list of [event]s; what
    it raises is an [exn].  The libraries it calls are not part of the
    repository: the syntax checker, [urljoin] and the remote endpoint are
    variables of the development.

    Taken as given: [urljoin] returns a URL for every field (the library
    raises [ValueError] on some, [//[] for one) and every request gets a
    response (a failure of the transport is not modelled): what is said
    of the requests and the output of every run is said of an initial
    stretch of the fields, which stays true when a run stops short for
    one of these reasons, and what is said of the exceptions is said of
    response handling and local variables; an [EvGet] records the
    arguments of [session.get], not what the requests library makes of
    the URL before it sends it; the input is the list of rows that
    [csv.reader] makes of it, one row per line; a row handed to the
    [csv.writer] is recorded as the list of its cell values, before the
    writer turns them into text. *)

From Stdlib Require Import ZArith String Ascii List Bool Lia.
From stdpp Require Import base option list gmap strings.

Set Warnings "-register-all".
Local Open Scope string_scope.
Local Open Scope list_scope.

(** ** Python values, as [resp.json()] returns them *)

Module Py.

(** A decoded JSON document.  A number with a fraction or an exponent is
    a finite binary float, kept here as the pair [m], [e] standing for
    [m * 2^e]; object keys are strings. *)
Inductive pyval : Type :=
  | PNone
  | PBool (b : bool)
  | PInt (z : Z)
  | PFloat (m e : Z)
  | PStr (s : string)
  | PList (l : list pyval)
  | PDict (d : gmap string pyval).

(** What the script can raise. *)
Inductive exn : Type :=
  | UnboundLocalError (name : string)
  | JSONDecodeError
  | TypeError
  | AttributeError
  | KeyError (key : string).

(** [bool(v)] *)
Definition truthy (v : pyval) : bool :=
  match v with
  | PNone => false
  | PBool b => b
  | PInt z => negb (z =? 0)%Z
  | PFloat m _ => negb (m =? 0)%Z
  | PStr s => negb (String.eqb s EmptyString)
  | PList l => match l with [] => false | _ => true end
  | PDict d => negb (bool_decide (d = ∅))
  end.

(** [p in s] on two strings: [p] occurs in [s]. *)
Fixpoint is_prefix (p s : string) : bool :=
  match p, s with
  | EmptyString, _ => true
  | String a p', String b s' => Ascii.eqb a b && is_prefix p' s'
  | String _ _, EmptyString => false
  end.

Fixpoint occurs_in (p s : string) : bool :=
  is_prefix p s ||
  match s with
  | EmptyString => false
  | String _ s' => occurs_in p s'
  end.

(** [v == k] for a string [k]: only the same string is equal to it. *)
Definition eq_str (k : string) (v : pyval) : bool :=
  match v with
  | PStr s => String.eqb s k
  | _ => false
  end.

(** [k in v] for a string [k] *)
Definition contains (k : string) (v : pyval) : exn + bool :=
  match v with
  | PDict d => inr (bool_decide (is_Some (d !! k)))
  | PList l => inr (existsb (eq_str k) l)
  | PStr s => inr (occurs_in k s)
  | PNone | PBool _ | PInt _ | PFloat _ _ => inl TypeError
  end.

(** [v[k]] for a string [k] *)
Definition getitem (v : pyval) (k : string) : exn + pyval :=
  match v with
  | PDict d => match d !! k with
               | Some x => inr x
               | None => inl (KeyError k)
               end
  | _ => inl TypeError
  end.

(** [v[k] = x] for a string [k] *)
Definition setitem (v : pyval) (k : string) (x : pyval) : exn + pyval :=
  match v with
  | PDict d => inr (PDict (<[k := x]> d))
  | _ => inl TypeError
  end.

End Py.
Export Py.

(** ** The part of [csv.DictWriter] the script uses *)

Module DictWriter.

(** [restval=''], what a column without a value is written as. *)
Definition restval : pyval := PStr EmptyString.

(** [rowdict.get(key, restval) for key in fieldnames]: with
    [extrasaction='ignore'] no key of [rowdict] is looked at besides the
    field names.  The list is what the underlying [csv.writer] receives. *)
Definition dict_to_list (fieldnames : list string) (rest : pyval)
    (rowdict : gmap string pyval) : list pyval :=
  map (fun key => default rest (rowdict !! key)) fieldnames.

(** [writeheader]: the row [dict(zip(fieldnames, fieldnames))] *)
Definition header (fieldnames : list string) : list pyval :=
  map PStr fieldnames.


End DictWriter.

(** ** Events and the monad of the script *)

(** A line on standard error ([eprint]). *)
Inductive errmsg : Type :=
  | MsgInvalid (line_num : nat) (recip reason : string)
  | MsgScanned (name : string) (count_ok count_bad : nat)
  | MsgSkipping
  | MsgErrorResponse (content : pyval)
  | MsgDone.

(** A line on standard output ([print]). *)
Inductive outmsg : Type :=
  | OutStatus (status_code : Z)
  | OutSnoozing.

Inductive event : Type :=
  | EvGet (target : string) (headers : list (string * string))
  | EvStderr (m : errmsg)
  | EvStdout (m : outmsg)
  | EvWriteRow (cells : list pyval)
  | EvSleep (secs : Z)
  | EvPbarOpen (total : nat)
  | EvPbarUpdate (n : nat)
  | EvPbarClose
  | EvSeek (pos : nat)
  | EvCloseIn
  | EvCloseOut.

(** What a request comes back with: the status and the body, [None] when
    the body is not JSON ([resp.json()] raises). *)
Record response : Type := Response {
  status_code : Z;
  body : option pyval
}.

(** The input: the rows [csv.reader] makes of it, one record per line. *)
Record source : Type := Source {
  name : string;
  rows : list (list string);
  seekable : bool
}.

(** The state the script moves: how many requests were sent (the endpoint
    answers the n-th request with its n-th response) and how many rows of
    the input have been read. *)
Record state : Type := State {
  reqno : nat;
  fpos : nat
}.

Record res (A : Type) : Type := Res {
  events : list event;
  final : state;
  value : exn + A
}.
Arguments Res {A} _ _ _.
Arguments events {A} _.
Arguments final {A} _.
Arguments value {A} _.

Definition M (A : Type) : Type := state -> res A.

Definition ret {A} (a : A) : M A := fun s => Res [] s (inr a).

Definition raise {A} (e : exn) : M A := fun s => Res [] s (inl e).

Definition bind {A B} (c : M A) (k : A -> M B) : M B :=
  fun s =>
    let r := c s in
    match value r with
    | inl e => Res (events r) (final r) (inl e)
    | inr a => let r' := k a (final r) in
               Res (events r ++ events r') (final r') (value r')
    end.

#[export] Instance M_ret : MRet M := @ret.
#[export] Instance M_bind : MBind M := fun A B k c => bind c k.

Definition emit (e : event) : M unit := fun s => Res [e] s (inr tt).

Definition lift {A} (x : exn + A) : M A :=
  match x with
  | inl e => raise e
  | inr a => ret a
  end.

(** [with cm: body]: the exit of the context manager runs whether or not
    the body raises, and the exception goes on. *)
Definition with_exit {A} (body : M A) (exit : event) : M A :=
  fun s =>
    let r := body s in
    Res (events r ++ [exit]) (final r) (value r).

Definition eprint (m : errmsg) : M unit := emit (EvStderr m).
Definition print (m : outmsg) : M unit := emit (EvStdout m).
Definition sleep (secs : Z) : M unit := emit (EvSleep secs).

(** Reading a local variable that no assignment has bound. *)
Definition load_local {A} (name : string) (v : option A) : M A :=
  match v with
  | Some a => ret a
  | None => raise (UnboundLocalError name)
  end.

(** ** Projections of a run *)

Definition requests (tr : list event) : list (string * list (string * string)) :=
  omap (fun e => match e with EvGet u hs => Some (u, hs) | _ => None end) tr.

(** The rows handed to the CSV writer.  They are not all of the output
    when [outfile] is standard output: see [output] below. *)
Definition written (tr : list event) : list (list pyval) :=
  omap (fun e => match e with EvWriteRow c => Some c | _ => None end) tr.

Definition stderr (tr : list event) : list errmsg :=
  omap (fun e => match e with EvStderr m => Some m | _ => None end) tr.


(** The progress counter: the sum of the [pbar.update] calls. *)
Definition progress (tr : list event) : nat :=
  foldr Nat.add 0
    (omap (fun e => match e with EvPbarUpdate n => Some n | _ => None end) tr).

Definition raised {A} (r : res A) : option exn :=
  match value r with
  | inl e => Some e
  | inr _ => None
  end.

(** ** Percent-encoding, as the interface description words it

    Every byte outside the unreserved set (letters, digits, [-], [.], [_],
    [~]) becomes [%XX].  The script has no such step; the definition is the
    description's, to compare against what the script sends. *)

Definition hex_digit (n : N) : ascii :=
  match n with
  | 0%N => "0" | 1%N => "1" | 2%N => "2" | 3%N => "3"
  | 4%N => "4" | 5%N => "5" | 6%N => "6" | 7%N => "7"
  | 8%N => "8" | 9%N => "9" | 10%N => "A" | 11%N => "B"
  | 12%N => "C" | 13%N => "D" | 14%N => "E" | _ => "F"
  end%char.

Definition unreserved (c : ascii) : bool :=
  let n := N_of_ascii c in
  ((65 <=? n) && (n <=? 90) || (97 <=? n) && (n <=? 122) ||
   (48 <=? n) && (n <=? 57) ||
   (n =? 45) || (n =? 46) || (n =? 95) || (n =? 126))%N.

Fixpoint percent_encode (s : string) : string :=
  match s with
  | EmptyString => EmptyString
  | String c s' =>
      if unreserved c then String c (percent_encode s')
      else
        let n := N_of_ascii c in
        String "%" (String (hex_digit (n / 16)) (String (hex_digit (n mod 16))
          (percent_encode s')))
  end.

(** The same with the most that a reading of "percent-encoded" can leave
    alone: besides the unreserved set, every character that may stand in
    a path as it is (the sub-delimiters, [:], [@] and [/]). *)
Definition path_char (c : ascii) : bool :=
  unreserved c ||
  existsb (Ascii.eqb c)
    ["!"; "$"; "&"; "'"; "("; ")"; "*"; "+"; ","; ";"; "="; ":"; "@"; "/"]%char.

Fixpoint percent_encode_lenient (s : string) : string :=
  match s with
  | EmptyString => EmptyString
  | String c s' =>
      if path_char c then String c (percent_encode_lenient s')
      else
        let n := N_of_ascii c in
        String "%" (String (hex_digit (n / 16)) (String (hex_digit (n mod 16))
          (percent_encode_lenient s')))
  end.

(** ** Fixtures: a syntax checker, an endpoint and inputs to run the
    script on *)

Module Fixture.

(** A checker that accepts what has an [@] in it. *)
Definition has_at (recip : string) : option string :=
  if occurs_in "@" recip then None
  else Some "The email address is not valid. It must have exactly one @-sign.".

(** [urljoin] on a base that ends in [/] and a reference that is a single
    path segment: the reference is appended. *)
Definition urljoin_segment (base ref : string) : string := base +:+ ref.

Definition base_url : string :=
  "https://api.sparkpost.com/api/v1/recipient-validation/single/".

Definition ok (fields : list (string * pyval)) : response :=
  Response 200 (Some (PDict (list_to_map [("results", PDict (list_to_map fields))]))).

Definition status_only (code : Z) : response :=
  Response code (Some (PDict (list_to_map
    [("errors", PList [PDict (list_to_map [("message", PStr "Too many requests")])])]))).

Definition not_json (code : Z) : response := Response code None.

(** An endpoint that answers the requests in the order of a list, and
    [last] once the list is used up. *)
Definition answers (l : list response) (last : response) (n : nat) : response :=
  nth n l last.


(** An endpoint that gives every request the same answer. *)
Definition always (r : response) (n : nat) : response := r.

(** A 200 body without [results]. *)
Definition no_results : gmap string pyval :=
  list_to_map [("message", PStr "ok")].

(** Cutting a text at a separator; [cur] is what was read since the last
    one, backwards. *)
Fixpoint split_at (sep : ascii) (cur : string) (s : string) : list string :=
  match s with
  | EmptyString => [String.rev cur]
  | String c s' =>
      if Ascii.eqb c sep then String.rev cur :: split_at sep EmptyString s'
      else split_at sep (String c cur) s'
  end.

(** The lines of a text: what is between its newlines, without the empty
    rest after a last newline. *)
Definition text_lines (text : string) : list string :=
  let segs := split_at "010" EmptyString text in
  match List.last segs EmptyString with
  | EmptyString => List.removelast segs
  | _ => segs
  end.

(** [csv.reader] on a text without quotes or carriage returns: a line is
    cut at its commas, and an empty line gives a row without fields. *)
Definition plain_rows (text : string) : list (list string) :=
  map (fun line => match line with
                   | EmptyString => []
                   | _ => split_at "," EmptyString line
                   end)
      (text_lines text).

(** A [hostCleanup] that puts the scheme in front, and an environment
    without [SPARKPOST_HOST]. *)
Definition with_scheme (host : string) : string := "https://" +:+ host.

Definition no_env (name default : string) : string := default.

Definition file (lines : list (list string)) : source :=
  Source "recipients.csv" lines true.

Definition pipe (lines : list (list string)) : source :=
  Source "<stdin>" lines false.

Definition start : state := State 0 0.

End Fixture.

(** ** The script *)

Section Script.

(** [validate_email(recip, check_deliverability=False)]: [None] when it
    returns, [Some reason] when it raises [EmailNotValidError] with that
    message. *)
Variable validate_email : string -> option string.

(** [requests.compat.urljoin], taken where it returns.  On a reference
    that it cannot parse the library raises [ValueError], and the script
    ends there, before the request for that field. *)
Variable urljoin : string -> string -> string.

(** The module-level [url]: the cleaned host followed by
    [/api/v1/recipient-validation/single/]. *)
Variable url : string.

(** The endpoint: its answer to the n-th request of the run. *)
Variable api : nat -> response.

(** [session.get(thisReq, headers=h)] followed by [future.result()] *)
Definition session_get (thisReq : string) (h : list (string * string)) : M response :=
  fun s => Res [EvGet thisReq h] (State (S (reqno s)) (fpos s)) (inr (api (reqno s))).

(** [resp.json()] *)
Definition resp_json (resp : response) : M pyval :=
  match body resp with
  | Some v => ret v
  | None => raise JSONDecodeError
  end.

(** [fh.writerow(row)] for [fh = csv.DictWriter(outfile, fieldnames=fList,
    restval='', extrasaction='ignore')] *)
Definition writerow (fieldnames : list string) (row : pyval) : M unit :=
  match row with
  | PDict d => emit (EvWriteRow (DictWriter.dict_to_list fieldnames DictWriter.restval d))
  | _ => raise AttributeError
  end.

Definition writeheader (fieldnames : list string) : M unit :=
  emit (EvWriteRow (DictWriter.header fieldnames)).

Definition pbar_update (n : nat) : M unit := emit (EvPbarUpdate n).

(** [for x in l: body] *)
Fixpoint for_each {A} (l : list A) (body : A -> M unit) : M unit :=
  match l with
  | [] => mret tt
  | x :: l' => body x;; for_each l' body
  end.

(** Taking the next row from the reader moves the input on. *)
Definition next_row : M unit :=
  fun s => Res [] (State (reqno s) (S (fpos s))) (inr tt).

(** [for r in f: body] for [f = csv.reader(infile)], with the variables
    the body assigns threaded as [acc]; the body also gets [f.line_num]. *)
Fixpoint read_rows {V} (rs : list (list string)) (line_num : nat) (acc : V)
    (body : nat -> list string -> V -> M V) : M V :=
  match rs with
  | [] => mret acc
  | r :: rs' =>
      next_row;;
      acc' ← body (S line_num) r acc;
      read_rows rs' (S line_num) acc' body
  end.

Definition for_reader {V} (infile : source) (acc : V)
    (body : nat -> list string -> V -> M V) : M V :=
  fun s => read_rows (drop (fpos s) (rows infile)) 0 acc body s.

Definition seek (pos : nat) : M unit :=
  fun s => Res [EvSeek pos] (State (reqno s) pos) (inr tt).

(** The headers dictionary [h] of [validateRecipients]. *)
Definition h (apiKey : string) : list (string * string) :=
  [("Authorization", apiKey); ("Accept", "application/json")].

(** The body of the inner loop of [validateRecipients], for one field [i]
    of a row: one request, whose single future is awaited, and the
    handling of its response. *)
Definition validate_field (fieldnames : list string) (apiKey : string)
    (i : string) : M unit :=
  let thisReq := urljoin url i in
  resp ← session_get thisReq (h apiKey);
  content ← resp_json resp;
  if (status_code resp =? 200)%Z then
    found ← (if truthy content then lift (contains "results" content)
             else mret false);
    (if found : bool then
       row ← lift (getitem content "results");
       row ← lift (setitem row "email" (PStr i));
       writerow fieldnames row
     else
       eprint (MsgErrorResponse content));;
    pbar_update 1
  else
    print (OutStatus (status_code resp));;
    print OutSnoozing;;
    sleep 10.

(** [for i in address: ...] *)
Definition validate_row (fieldnames : list string) (apiKey : string)
    (address : list string) : M unit :=
  for_each address (validate_field fieldnames apiKey).

Definition validateRecipients (infile : source) (fieldnames : list string)
    (apiKey : string) (snooze : Z) (count : nat) : M unit :=
  emit (EvPbarOpen count);;
  with_exit
    (for_reader infile tt
       (fun _ address _ => validate_row fieldnames apiKey address))
    EvPbarClose.

Definition fList : list string :=
  ["email"; "valid"; "result"; "reason"; "is_role"; "is_disposable";
   "is_free"; "did_you_mean"].

(** The body of the precheck loop of [processFile], on the row [r]. *)
Definition precheck_row (line_num : nat) (r : list string)
    (counts : nat * nat) : M (nat * nat) :=
  let '(count_ok, count_bad) := counts in
  match r with
  | [recip] =>
      match validate_email recip with
      | None => mret (S count_ok, count_bad)
      | Some e =>
          eprint (MsgInvalid line_num recip e);;
          mret (count_ok, S count_bad)
      end
  | _ => mret (count_ok, S count_bad)
  end.

(** The first branch of [processFile]: scan, report, rewind. *)
Definition precheck (infile : source) : M (nat * nat) :=
  counts ← for_reader infile (0, 0) precheck_row;
  eprint (MsgScanned (name infile) counts.1 counts.2);;
  seek 0;;
  mret counts.

(** [processFile]; [count_ok] is bound by the first branch only.  The
    parameter [url] of the function is not the one [validateRecipients]
    reads, which is the module's. *)
Definition processFile (infile : source) (url_param apiKey : string)
    (snooze : Z) (skip_precheck : bool) : M unit :=
  count_ok ← (if seekable infile && negb skip_precheck then
                counts ← precheck infile;
                mret (Some counts.1)
              else
                eprint MsgSkipping;;
                mret None);
  writeheader fList;;
  count ← load_local "count_ok" count_ok;
  validateRecipients infile fList apiKey snooze count;;
  emit EvCloseIn;; emit EvCloseOut;; eprint MsgDone;;
  emit EvCloseIn;; emit EvCloseOut;; eprint MsgDone.

(** *** Shapes of responses and rows used in the statements *)

(** The request the script sends for the field [i]. *)
Definition request_for (apiKey i : string) : string * list (string * string) :=
  (urljoin url i, [("Authorization", apiKey); ("Accept", "application/json")]).



(** A 200 response whose body is an object with an object under
    [results]. *)
Definition success (r : response) (payload : gmap string pyval) : Prop :=
  exists content : gmap string pyval,
    r = Response 200 (Some (PDict content)) /\
    content !! "results" = Some (PDict payload).

(** A row of the first pass that counts as OK. *)
Definition row_ok (r : list string) : bool :=
  match r with
  | [recip] => match validate_email recip with None => true | Some _ => false end
  | _ => false
  end.

(** An event that is a line on standard error. *)
Definition is_stderr (e : event) : bool :=
  match e with
  | EvStderr _ => true
  | _ => false
  end.

(** The counts of the first pass over the rows [rs]. *)
Definition count_rows (rs : list (list string)) : nat * nat :=
  (length (List.filter row_ok rs),
   length (List.filter (fun r => negb (row_ok r)) rs)).

(** What [processFile] does after [validateRecipients] has returned. *)
Definition closing : list event :=
  [EvCloseIn; EvCloseOut; EvStderr MsgDone;
   EvCloseIn; EvCloseOut; EvStderr MsgDone].

(** The row [fh.writerow] lays out for the field [i] and the payload
    that came back for it. *)
Definition result_row (i : string) (payload : gmap string pyval) : list pyval :=
  DictWriter.dict_to_list fList DictWriter.restval (<["email" := PStr i]> payload).

(** The events of the second pass, cut at the fields: every piece is what
    [validate_field] did for one field. *)
Definition field_chunk (fl : list string) (apiKey : string)
    (c : string * list event) : Prop :=
  exists s', c.2 = events (validate_field fl apiKey c.1 s').

(** *** More shapes for the statements *)

Definition sleeps (tr : list event) : list Z :=
  omap (fun e => match e with EvSleep n => Some n | _ => None end) tr.

(** The events one field of the second pass can leave. *)
Definition is_field_event (e : event) : bool :=
  match e with
  | EvGet _ _ | EvStdout _ | EvWriteRow _ | EvSleep _ | EvPbarUpdate _ => true
  | EvStderr (MsgErrorResponse _) => true
  | _ => false
  end.

(** An event of the end of [processFile]: a close, or the line [Done]. *)
Definition is_closing (e : event) : bool :=
  match e with
  | EvCloseIn | EvCloseOut | EvStderr MsgDone => true
  | _ => false
  end.

(** A row of the first pass that is counted bad without a word: one that
    does not have exactly one field. *)
Definition malformed (r : list string) : bool :=
  negb (Nat.eqb (length r) 1).

(** What the scan of the first pass is to print for the rows [rs], the
    reader having read [line_num] lines before them. *)
Fixpoint diagnostics (line_num : nat) (rs : list (list string)) : list event :=
  match rs with
  | [] => []
  | r :: rs' =>
      match r with
      | [recip] =>
          match validate_email recip with
          | Some e => [EvStderr (MsgInvalid (S line_num) recip e)]
          | None => []
          end
      | _ => []
      end ++ diagnostics (S line_num) rs'
  end.

(** *** The module level of the script *)

(** [hostCleanup] and [getenv] of the module [common], which these sources
    import and do not hold. *)
Variable hostCleanup : string -> string.
Variable getenv : string -> string -> string.

(** The rows [csv.reader] makes of the text of an [io.StringIO]. *)
Variable csv_rows : string -> list (list string).

(** [s.replace(old, new)] for [old] and [new] of one character each *)
Fixpoint replace_char (old new : ascii) (s : string) : string :=
  match s with
  | EmptyString => EmptyString
  | String c s' =>
      String (if Ascii.eqb c old then new else c) (replace_char old new s')
  end.

(** What [parser.parse_args()] gives: the input opened by argparse
    (standard input when [--infile] is not given), the [--email] argument
    and the [--skip_precheck] flag.  The output is where the rows go. *)
Record args : Type := Args {
  args_infile : source;
  args_email : option string;
  args_skip_precheck : bool
}.

Definition apiKey : string := EmptyString.

Definition host : string :=
  hostCleanup (getenv "SPARKPOST_HOST" "api.sparkpost.com").

(** The value the module binds [url] to.  [validateRecipients] reads the
    module's [url], the variable of this section; the statements about
    [main] that name the host take [url = module_url] as a hypothesis. *)
Definition module_url : string :=
  host +:+ "/api/v1/recipient-validation/single/".

Definition snooze : Z := 10.

(** [io.StringIO(args.email.replace(',', '\n'))], named
    ['from command line']; a [StringIO] is seekable. *)
Definition cmdInfile (email : string) : source :=
  Source "from command line" (csv_rows (replace_char "," "010" email)) true.

(** The statements of the module after [parse_args]; [if args.email:] is
    taken by a string that is not empty. *)
Definition main (a : args) : M unit :=
  match args_email a with
  | Some (String c email) =>
      processFile (cmdInfile (String c email)) module_url apiKey snooze
        (args_skip_precheck a)
  | Some EmptyString | None =>
      processFile (args_infile a) module_url apiKey snooze
        (args_skip_precheck a)
  end.

(** *** The response to a request, apart from the request *)

(** The body of [for future in as_completed(futures)], after
    [resp = future.result()]: what the script does with the response to
    the request for the field [i]. *)
Definition handle_response (fieldnames : list string) (i : string)
    (resp : response) : M unit :=
  content ← resp_json resp;
  if (status_code resp =? 200)%Z then
    found ← (if truthy content then lift (contains "results" content)
             else mret false);
    (if found : bool then
       row ← lift (getitem content "results");
       row ← lift (setitem row "email" (PStr i));
       writerow fieldnames row
     else
       eprint (MsgErrorResponse content));;
    pbar_update 1
  else
    print (OutStatus (status_code resp));;
    print OutSnoozing;;
    sleep 10.

(** The payload of a response that has one: status 200 and a body that
    is an object with an object under [results]. *)
Definition payload_of (r : response) : option (gmap string pyval) :=
  if (status_code r =? 200)%Z then
    match body r with
    | Some (PDict content) =>
        match content !! "results" with
        | Some (PDict payload) => Some payload
        | _ => None
        end
    | _ => None
    end
  else None.


(** *** The output as a stream

    [outfile] is a file of its own or, when [--outfile] is not given,
    standard output: then what [print] writes is in the output as well,
    between the rows. *)
Inductive line : Type :=
  | LRow (cells : list pyval)
  | LText (m : outmsg).

Definition output (outfile_is_stdout : bool) (tr : list event) : list line :=
  omap (fun e => match e with
                 | EvWriteRow cells => Some (LRow cells)
                 | EvStdout m => if outfile_is_stdout then Some (LText m)
                                 else None
                 | _ => None
                 end) tr.


(** The lines one field leaves in the output, by the response to its
    request. *)
Definition field_lines (outfile_is_stdout : bool) (i : string)
    (r : response) : list line :=
  match payload_of r with
  | Some payload => [LRow (result_row i payload)]
  | None =>
      match body r with
      | Some _ =>
          if outfile_is_stdout && negb (status_code r =? 200)%Z
          then [LText (OutStatus (status_code r)); LText OutSnoozing]
          else []
      | None => []
      end
  end.

Fixpoint lines_of (outfile_is_stdout : bool) (n : nat) (fields : list string)
    : list line :=
  match fields with
  | [] => []
  | i :: fields' =>
      field_lines outfile_is_stdout i (api n) ++
      lines_of outfile_is_stdout (S n) fields'
  end.


(** Unfolding the operations of the monad, and splitting on what a [match]
    looks at. *)
Ltac run :=
  unfold mbind, M_bind, bind, mret, M_ret, ret, raise, lift, emit, eprint,
    print, sleep, pbar_update, writerow, writeheader, load_local, next_row,
    seek, session_get, resp_json, with_exit in *;
  simpl in *.

Ltac case_scrutinee :=
  match goal with
  | |- context [match ?x with _ => _ end] => destruct x eqn:?; simpl in *
  end.

(** ** Running the monad *)

Lemma run_bind {A B} (c : M A) (k : A -> M B) (s : state) :
  (c ≫= k) s =
  match value (c s) with
  | inl e => Res (events (c s)) (final (c s)) (inl e)
  | inr a => Res (events (c s) ++ events (k a (final (c s))))
                 (final (k a (final (c s)))) (value (k a (final (c s))))
  end.
Proof. reflexivity. Qed.

Lemma run_ret {A} (a : A) (s : state) : (mret a : M A) s = Res [] s (inr a).
Proof. reflexivity. Qed.

Lemma bind_ok {A B} (c : M A) (k : A -> M B) s ev s' a :
  c s = Res ev s' (inr a) ->
  (c ≫= k) s = Res (ev ++ events (k a s')) (final (k a s')) (value (k a s')).
Proof. intros Hc. rewrite run_bind, Hc. reflexivity. Qed.

(** ** One field of the second pass, by the response it gets *)

Lemma validate_field_not_json fl apiKey i s :
  body (api (reqno s)) = None ->
  validate_field fl apiKey i s =
  Res [EvGet (urljoin url i) (h apiKey)] (State (S (reqno s)) (fpos s))
      (inl JSONDecodeError).
Proof.
  intros Hb. unfold validate_field. run. rewrite Hb. reflexivity.
Qed.

Lemma validate_field_non_200 fl apiKey i s content :
  body (api (reqno s)) = Some content ->
  (status_code (api (reqno s)) =? 200)%Z = false ->
  validate_field fl apiKey i s =
  Res [EvGet (urljoin url i) (h apiKey);
       EvStdout (OutStatus (status_code (api (reqno s))));
       EvStdout OutSnoozing; EvSleep 10]
      (State (S (reqno s)) (fpos s)) (inr tt).
Proof.
  intros Hb Hc. unfold validate_field. run. rewrite Hb. simpl.
  rewrite Hc. reflexivity.
Qed.

Lemma validate_field_success fl apiKey i s payload :
  success (api (reqno s)) payload ->
  validate_field fl apiKey i s =
  Res [EvGet (urljoin url i) (h apiKey);
       EvWriteRow (DictWriter.dict_to_list fl DictWriter.restval
                     (<["email" := PStr i]> payload));
       EvPbarUpdate 1]
      (State (S (reqno s)) (fpos s)) (inr tt).
Proof.
  intros (content & Hr & Hk). unfold validate_field. run. rewrite Hr. simpl.
  rewrite bool_decide_eq_false_2.
  2:{ intros ->. rewrite lookup_empty in Hk. discriminate. }
  simpl. rewrite bool_decide_eq_true_2 by (rewrite Hk; eauto).
  simpl. rewrite Hk. reflexivity.
Qed.

(** Whatever comes back, the field was asked about once, and the input
    was not touched. *)
Lemma validate_field_once fl apiKey i s :
  requests (events (validate_field fl apiKey i s)) = [request_for apiKey i] /\
  final (validate_field fl apiKey i s) = State (S (reqno s)) (fpos s).
Proof.
  unfold validate_field, request_for, h. run.
  destruct (api (reqno s)) as [code [content|]]; simpl; [|auto].
  destruct (code =? 200)%Z; simpl; [|auto].
  destruct (truthy content); simpl.
  - destruct (contains "results" content) as [e|[|]]; simpl; [auto| |auto].
    destruct (getitem content "results") as [e|row]; simpl; [auto|].
    destruct row; simpl; auto.
  - auto.
Qed.


(** ** The loops *)


Lemma requests_app (a b : list event) : requests (a ++ b) = requests a ++ requests b.
Proof. unfold requests. apply omap_app. Qed.

Lemma written_app (a b : list event) : written (a ++ b) = written a ++ written b.
Proof. unfold written. apply omap_app. Qed.

Lemma stderr_only_silent (tr : list event) :
  Forall (fun e => is_stderr e = true) tr -> requests tr = [] /\ written tr = [].
Proof.
  induction 1 as [|e tr He _ [IH1 IH2]]; [auto|].
  destruct e; try discriminate. simpl. auto.
Qed.

Lemma read_rows_cons {V} r rs ln (acc : V) body s :
  read_rows (r :: rs) ln acc body s =
  match value (body (S ln) r acc (State (reqno s) (S (fpos s)))) with
  | inl e =>
      Res (events (body (S ln) r acc (State (reqno s) (S (fpos s)))))
          (final (body (S ln) r acc (State (reqno s) (S (fpos s))))) (inl e)
  | inr acc' =>
      Res (events (body (S ln) r acc (State (reqno s) (S (fpos s)))) ++
           events (read_rows rs (S ln) acc' body
                     (final (body (S ln) r acc (State (reqno s) (S (fpos s)))))))
          (final (read_rows rs (S ln) acc' body
                    (final (body (S ln) r acc (State (reqno s) (S (fpos s)))))))
          (value (read_rows rs (S ln) acc' body
                    (final (body (S ln) r acc (State (reqno s) (S (fpos s)))))))
  end.
Proof.
  simpl read_rows. rewrite run_bind. cbn [next_row value events final app].
  rewrite run_bind.
  destruct (value (body (S ln) r acc (State (reqno s) (S (fpos s)))));
    reflexivity.
Qed.

(** A row of the second pass that does not raise has asked about each of
    its fields, in order. *)
Lemma validate_row_requests fl apiKey address s :
  value (validate_row fl apiKey address s) = inr tt ->
  requests (events (validate_row fl apiKey address s)) =
    map (request_for apiKey) address /\
  final (validate_row fl apiKey address s) =
    State (reqno s + length address) (fpos s).
Proof.
  unfold validate_row. revert s.
  induction address as [|i address IH]; intros s.
  - intros _. destruct s; simpl. rewrite Nat.add_0_r. auto.
  - simpl for_each. rewrite run_bind.
    destruct (validate_field_once fl apiKey i s) as [Hreq Hfin].
    destruct (value (validate_field fl apiKey i s)) as [e|[]];
      cbn [events final value]; [discriminate|].
    intros Hv. rewrite Hfin in *. destruct (IH _ Hv) as [IH1 IH2].
    rewrite requests_app, Hreq, IH1, IH2. simpl.
    split; [reflexivity|]. f_equal. lia.
Qed.

(** The second pass over the rows [rs]. *)
Lemma dispatch_requests fl apiKey rs ln s :
  let r := read_rows rs ln tt
             (fun _ address _ => validate_row fl apiKey address) s in
  value r = inr tt ->
  requests (events r) = map (request_for apiKey) (concat rs) /\
  final r = State (reqno s + length (concat rs)) (fpos s + length rs).
Proof.
  cbn zeta. revert ln s. induction rs as [|address rs IH]; intros ln s.
  - intros _. destruct s; simpl. rewrite !Nat.add_0_r. auto.
  - rewrite read_rows_cons.
    set (s1 := State (reqno s) (S (fpos s))).
    pose proof (validate_row_requests fl apiKey address s1) as Hrow.
    destruct (value (validate_row fl apiKey address s1)) as [e|[]];
      cbn [events final value]; [discriminate|].
    destruct (Hrow eq_refl) as [Hreq Hfin]. intros Hv.
    rewrite Hfin in *. destruct (IH _ _ Hv) as [IH1 IH2].
    rewrite requests_app, Hreq, IH1, IH2. simpl concat.
    rewrite map_app, length_app. simpl.
    split; [reflexivity|]. f_equal; lia.
Qed.

(** The first pass never raises, writes to standard error only, and
    counts every row once. *)
Lemma precheck_rows_run rs ln count_ok count_bad s :
  exists pre,
    read_rows rs ln (count_ok, count_bad) precheck_row s =
      Res pre (State (reqno s) (fpos s + length rs))
          (inr (count_ok + (count_rows rs).1, count_bad + (count_rows rs).2)) /\
    Forall (fun e => is_stderr e = true) pre.
Proof.
  revert ln count_ok count_bad s.
  induction rs as [|r rs IH]; intros ln count_ok count_bad s.
  - exists []. destruct s; simpl. rewrite !Nat.add_0_r. auto.
  - rewrite read_rows_cons.
    set (s1 := State (reqno s) (S (fpos s))).
    assert (exists ev,
      precheck_row (S ln) r (count_ok, count_bad) s1 =
        Res ev s1 (inr (if row_ok r then (S count_ok, count_bad)
                        else (count_ok, S count_bad))) /\
      Forall (fun e => is_stderr e = true) ev) as (ev & Hrow & Hev).
    { unfold precheck_row, row_ok.
      destruct r as [|recip [|? ?]]; [by exists []| |by exists []].
      destruct (validate_email recip).
      - eexists. split; [reflexivity|]. by repeat constructor.
      - by exists []. }
    rewrite Hrow. cbn [events final value].
    destruct (row_ok r) eqn:Hok;
      [destruct (IH (S ln) (S count_ok) count_bad s1) as (pre & Hrun & Hpre)
      |destruct (IH (S ln) count_ok (S count_bad) s1) as (pre & Hrun & Hpre)];
      rewrite Hrun; cbn [events final value]; exists (ev ++ pre);
      (split; [|by apply Forall_app]);
      subst s1; unfold count_rows; simpl; rewrite Hok; simpl;
      repeat (f_equal; try lia).
Qed.

(** What a field can have written: nothing, or the one row made of the
    payload of a successful response. *)
Lemma validate_field_written fl apiKey i s :
  written (events (validate_field fl apiKey i s)) = [] \/
  exists payload,
    success (api (reqno s)) payload /\
    written (events (validate_field fl apiKey i s)) =
      [DictWriter.dict_to_list fl DictWriter.restval (<["email" := PStr i]> payload)].
Proof.
  destruct (api (reqno s)) as [code [content|]] eqn:Hapi.
  2:{ left. rewrite validate_field_not_json by (rewrite Hapi; reflexivity).
      reflexivity. }
  destruct (code =? 200)%Z eqn:Hcode.
  2:{ left. erewrite validate_field_non_200 by (rewrite Hapi; eauto).
      reflexivity. }
  apply Z.eqb_eq in Hcode. subst code.
  destruct content as [| | | | |l|d];
    try (left; unfold validate_field; run; rewrite Hapi; simpl;
         repeat case_scrutinee; reflexivity).
  destruct (d !! "results") as [[| | | | | |payload]|] eqn:Hk;
    try (left; unfold validate_field; run; rewrite Hapi; simpl;
         rewrite ?Hk; simpl;
         destruct (bool_decide (d = ∅)); simpl; try reflexivity;
         destruct (bool_decide (is_Some (d !! "results"))); simpl;
         rewrite ?Hk; reflexivity).
  right. exists payload.
  assert (success (api (reqno s)) payload) as Hs by (rewrite Hapi; red; eauto).
  split; [rewrite <- Hapi; exact Hs|].
  rewrite (validate_field_success fl apiKey i s payload Hs). reflexivity.
Qed.

Lemma validate_row_chunks fl apiKey address s :
  exists chunks : list (string * list event),
    events (validate_row fl apiKey address s) = concat (chunks.*2) /\
    chunks.*1 `prefix_of` address /\
    Forall (field_chunk fl apiKey) chunks.
Proof.
  unfold validate_row. revert s.
  induction address as [|i address IH]; intros s.
  - exists []. repeat split; [reflexivity|constructor].
  - simpl for_each. rewrite run_bind.
    destruct (value (validate_field fl apiKey i s)) as [e|[]];
      cbn [events final value].
    + exists [(i, events (validate_field fl apiKey i s))].
      split; [cbn [fmap list_fmap concat snd]; by rewrite app_nil_r|].
      split; [by apply prefix_cons, prefix_nil|].
      repeat constructor. by exists s.
    + destruct (IH (final (validate_field fl apiKey i s)))
        as (chunks & Hev & Hpre & Hall).
      exists ((i, events (validate_field fl apiKey i s)) :: chunks).
      split; [rewrite fmap_cons, concat_cons; cbn [snd]; by rewrite Hev|].
      split; [rewrite fmap_cons; by apply prefix_cons|].
      constructor; [by exists s|exact Hall].
Qed.

Lemma dispatch_chunks fl apiKey rs ln s :
  exists chunks : list (string * list event),
    events (read_rows rs ln tt
              (fun _ address _ => validate_row fl apiKey address) s) =
      concat (chunks.*2) /\
    chunks.*1 `prefix_of` concat rs /\
    Forall (field_chunk fl apiKey) chunks.
Proof.
  revert ln s. induction rs as [|address rs IH]; intros ln s.
  - exists []. repeat split; [reflexivity|constructor].
  - rewrite read_rows_cons.
    set (s1 := State (reqno s) (S (fpos s))).
    destruct (validate_row_chunks fl apiKey address s1)
      as (chunks & Hev & Hpre & Hall).
    pose proof (validate_row_requests fl apiKey address s1) as Hreq.
    destruct (value (validate_row fl apiKey address s1)) as [e|[]];
      cbn [events final value].
    + exists chunks. split; [exact Hev|]. split; [|exact Hall].
      simpl. by apply prefix_app_r.
    + destruct (IH (S ln) (final (validate_row fl apiKey address s1)))
        as (chunks' & Hev' & Hpre' & Hall').
      assert (chunks.*1 = address) as Hfull.
      { destruct (Hreq eq_refl) as [Hr _]. rewrite Hev in Hr.
        clear -Hr Hpre Hall. destruct Hpre as [k Hk].
        assert (length (chunks.*1) = length address) as Hlen.
        { rewrite <- (length_map (request_for apiKey) address), <- Hr.
          rewrite length_fmap. clear -Hall.
          induction Hall as [|[i ev] chunks [s' Hc] _ IHc]; [reflexivity|].
          rewrite fmap_cons, concat_cons, requests_app, length_app, <- IHc.
          cbn [snd fst] in *. rewrite Hc.
          destruct (validate_field_once fl apiKey i s') as [-> _].
          reflexivity. }
        rewrite Hk, length_app in Hlen.
        destruct k; [by rewrite app_nil_r in Hk|simpl in Hlen; lia]. }
      exists (chunks ++ chunks'). rewrite !fmap_app, concat_app, Hev, Hev', Hfull.
      split; [reflexivity|]. split; [|by apply Forall_app].
      simpl. by apply prefix_app.
Qed.

(** ** The two functions as wholes *)

Lemma validateRecipients_run infile fl apiKey snooze count s :
  validateRecipients infile fl apiKey snooze count s =
  let d := read_rows (drop (fpos s) (rows infile)) 0 tt
             (fun _ address _ => validate_row fl apiKey address) s in
  Res (EvPbarOpen count :: events d ++ [EvPbarClose]) (final d) (value d).
Proof. reflexivity. Qed.

Lemma precheck_run infile s :
  exists pre,
    precheck infile s =
      Res (pre ++ [EvStderr (MsgScanned (name infile)
                     (count_rows (drop (fpos s) (rows infile))).1
                     (count_rows (drop (fpos s) (rows infile))).2);
                   EvSeek 0])
          (State (reqno s) 0)
          (inr (count_rows (drop (fpos s) (rows infile)))) /\
    Forall (fun e => is_stderr e = true) pre.
Proof.
  destruct (precheck_rows_run (drop (fpos s) (rows infile)) 0 0 0 s)
    as (pre & Hrun & Hpre).
  exists pre. split; [|exact Hpre].
  unfold precheck. rewrite run_bind. unfold for_reader. rewrite Hrun.
  cbn [value events final].
  destruct (count_rows (drop (fpos s) (rows infile))); reflexivity.
Qed.

(** With the first pass skipped, [count_ok] is read unbound. *)
Lemma processFile_skipped infile url_param apiKey snooze skip_precheck s :
  seekable infile && negb skip_precheck = false ->
  processFile infile url_param apiKey snooze skip_precheck s =
  Res [EvStderr MsgSkipping; EvWriteRow (DictWriter.header fList)] s
      (inl (UnboundLocalError "count_ok")).
Proof.
  intros Hskip. unfold processFile. rewrite Hskip. reflexivity.
Qed.

Lemma count_rows_all_ok rs :
  Forall (fun r => exists recip, r = [recip] /\ validate_email recip = None) rs ->
  count_rows rs = (length rs, 0).
Proof.
  unfold count_rows. induction 1 as [|r rs (recip & -> & Hr) _ IH];
    [reflexivity|].
  injection IH as IH1 IH2. simpl. rewrite Hr. simpl. by rewrite IH1, IH2.
Qed.


(** ** The claims *)

(** C2 (the code does otherwise).  When the first pass is skipped, because
    the input is not seekable or because [skip_precheck] is set, the
    script says so on standard error and writes the header, and then
    raises [UnboundLocalError] on [count_ok]: no request is sent. *)
Theorem C2_skipped_precheck_raises nm lines sk url_param apiKey snooze skip s :
  processFile (Source nm lines false) url_param apiKey snooze skip s =
    Res [EvStderr MsgSkipping; EvWriteRow (DictWriter.header fList)] s
        (inl (UnboundLocalError "count_ok")) /\
  processFile (Source nm lines sk) url_param apiKey snooze true s =
    Res [EvStderr MsgSkipping; EvWriteRow (DictWriter.header fList)] s
        (inl (UnboundLocalError "count_ok")) /\
  requests [EvStderr MsgSkipping; EvWriteRow (DictWriter.header fList)] = [].
Proof.
  split; [|split].
  - apply processFile_skipped. reflexivity.
  - apply processFile_skipped. simpl. apply andb_false_r.
  - reflexivity.
Qed.

(** C8.  When every row is a single field that the syntax check accepts,
    the first pass counts as many OK as there are rows and no bad one, and
    reports these counts; a row that does not have exactly one field, or
    whose field the check rejects, adds one to the bad count. *)
Theorem C8_precheck_counts :
  (forall infile s,
      fpos s = 0 ->
      Forall (fun r => exists recip, r = [recip] /\ validate_email recip = None)
             (rows infile) ->
      value (precheck infile s) = inr (length (rows infile), 0) /\
      EvStderr (MsgScanned (name infile) (length (rows infile)) 0)
        ∈ events (precheck infile s)) /\
  (forall line_num r count_ok count_bad s,
      length r <> 1 \/
      (exists recip e, r = [recip] /\ validate_email recip = Some e) ->
      value (precheck_row line_num r (count_ok, count_bad) s) =
        inr (count_ok, S count_bad)).
Proof.
  split.
  - intros infile s Hpos Hall.
    destruct (precheck_run infile s) as (pre & Hrun & _).
    rewrite Hpos, drop_0 in Hrun.
    rewrite (count_rows_all_ok _ Hall) in Hrun. rewrite Hrun. split; [reflexivity|].
    cbn [events fst snd]. apply elem_of_app. right. by left.
  - intros line_num r count_ok count_bad s Hbad. unfold precheck_row.
    destruct Hbad as [Hlen|(recip & e & -> & Hr)].
    + destruct r as [|recip [|? ?]]; [reflexivity|by destruct Hlen|reflexivity].
    + rewrite Hr. reflexivity.
Qed.

(** ** More about one field *)

Lemma progress_app (a b : list event) : progress (a ++ b) = progress a + progress b.
Proof.
  unfold progress. rewrite omap_app, foldr_app.
  induction (omap _ a) as [|n l IH]; simpl; [reflexivity|]. rewrite IH. lia.
Qed.

Lemma sleeps_app (a b : list event) : sleeps (a ++ b) = sleeps a ++ sleeps b.
Proof. unfold sleeps. apply omap_app. Qed.


Lemma validate_field_kinds fl apiKey i s :
  Forall (fun e => is_field_event e = true)
         (events (validate_field fl apiKey i s)).
Proof.
  unfold validate_field. run.
  destruct (api (reqno s)) as [code [content|]]; simpl;
    [|by repeat constructor].
  destruct (code =? 200)%Z; simpl; [|by repeat constructor].
  destruct (truthy content); simpl; [|by repeat constructor].
  destruct (contains "results" content) as [e|[|]]; simpl;
    [by repeat constructor| |by repeat constructor].
  destruct (getitem content "results") as [e|row]; simpl;
    [by repeat constructor|].
  destruct row; simpl; by repeat constructor.
Qed.

(** A field that returns has moved the bar by one or slept once, for 10
    seconds, and not both. *)
Lemma validate_field_balance fl apiKey i s :
  value (validate_field fl apiKey i s) = inr tt ->
  progress (events (validate_field fl apiKey i s)) +
    length (sleeps (events (validate_field fl apiKey i s))) = 1 /\
  Forall (fun n => n = 10%Z) (sleeps (events (validate_field fl apiKey i s))).
Proof.
  unfold validate_field. run.
  destruct (api (reqno s)) as [code [content|]]; simpl; [|discriminate].
  destruct (code =? 200)%Z; simpl; [|by repeat constructor].
  destruct (truthy content); simpl; [|by repeat constructor].
  destruct (contains "results" content) as [e|[|]]; simpl;
    [discriminate| |by repeat constructor].
  destruct (getitem content "results") as [e|row]; simpl; [discriminate|].
  destruct row; simpl; try discriminate. by repeat constructor.
Qed.

(** ** More about the loops *)



Lemma validate_row_balance fl apiKey address s :
  value (validate_row fl apiKey address s) = inr tt ->
  progress (events (validate_row fl apiKey address s)) +
    length (sleeps (events (validate_row fl apiKey address s))) =
    length address /\
  Forall (fun n => n = 10%Z) (sleeps (events (validate_row fl apiKey address s))).
Proof.
  unfold validate_row. revert s.
  induction address as [|i address IH]; intros s; [by split|].
  simpl for_each. rewrite run_bind.
  pose proof (validate_field_balance fl apiKey i s) as Hf.
  destruct (value (validate_field fl apiKey i s)) as [e|[]];
    cbn [events final value]; [discriminate|].
  intros Hv. destruct (Hf eq_refl) as [Hf1 Hf2].
  destruct (IH _ Hv) as [IH1 IH2].
  rewrite progress_app, sleeps_app, length_app. split; [cbn [length]; lia|].
  by apply Forall_app.
Qed.

Lemma dispatch_balance fl apiKey rs ln s :
  let d := read_rows rs ln tt
             (fun _ address _ => validate_row fl apiKey address) s in
  value d = inr tt ->
  progress (events d) + length (sleeps (events d)) = length (concat rs) /\
  Forall (fun n => n = 10%Z) (sleeps (events d)).
Proof.
  cbn zeta. revert ln s.
  induction rs as [|address rs IH]; intros ln s; [by split|].
  rewrite read_rows_cons.
  set (s1 := State (reqno s) (S (fpos s))).
  pose proof (validate_row_balance fl apiKey address s1) as Hrow.
  destruct (value (validate_row fl apiKey address s1)) as [e|[]];
    cbn [events final value]; [discriminate|].
  intros Hv. destruct (Hrow eq_refl) as [Hr1 Hr2].
  destruct (IH _ _ Hv) as [IH1 IH2].
  rewrite progress_app, sleeps_app, length_app. simpl concat.
  rewrite length_app. split; [lia|]. by apply Forall_app.
Qed.

(** What the pieces of the second pass add up to. *)
Lemma chunks_requests fl apiKey (chunks : list (string * list event)) :
  Forall (field_chunk fl apiKey) chunks ->
  requests (concat (chunks.*2)) = map (request_for apiKey) (chunks.*1).
Proof.
  induction 1 as [|[i ev] chunks [s' Hc] _ IH]; [reflexivity|].
  rewrite !fmap_cons, concat_cons, requests_app, IH. cbn [snd fst] in *.
  rewrite Hc. destruct (validate_field_once fl apiKey i s') as [-> _].
  reflexivity.
Qed.

Lemma chunks_kinds fl apiKey (chunks : list (string * list event)) :
  Forall (field_chunk fl apiKey) chunks ->
  Forall (fun e => is_field_event e = true) (concat (chunks.*2)).
Proof.
  induction 1 as [|[i ev] chunks [s' Hc] _ IH]; [constructor|].
  rewrite fmap_cons, concat_cons. cbn [snd fst] in *. rewrite Hc.
  apply Forall_app. split; [apply validate_field_kinds|exact IH].
Qed.

(** The scan of the first pass, as an equation. *)
Lemma precheck_rows_events rs ln count_ok count_bad s :
  read_rows rs ln (count_ok, count_bad) precheck_row s =
    Res (diagnostics ln rs) (State (reqno s) (fpos s + length rs))
        (inr (count_ok + (count_rows rs).1, count_bad + (count_rows rs).2)).
Proof.
  revert ln count_ok count_bad s.
  induction rs as [|r rs IH]; intros ln count_ok count_bad s.
  - destruct s; simpl. by rewrite !Nat.add_0_r.
  - rewrite read_rows_cons.
    set (s1 := State (reqno s) (S (fpos s))).
    assert (precheck_row (S ln) r (count_ok, count_bad) s1 =
              Res (match r with
                   | [recip] =>
                       match validate_email recip with
                       | Some e => [EvStderr (MsgInvalid (S ln) recip e)]
                       | None => []
                       end
                   | _ => []
                   end) s1
                  (inr (if row_ok r then (S count_ok, count_bad)
                        else (count_ok, S count_bad)))) as Hrow.
    { unfold precheck_row, row_ok.
      destruct r as [|recip [|? ?]]; [reflexivity| |reflexivity].
      destruct (validate_email recip); reflexivity. }
    rewrite Hrow. cbn [events final value].
    destruct (row_ok r) eqn:Hok; rewrite IH; cbn [events final value];
      subst s1; unfold count_rows; simpl; rewrite Hok; simpl;
      repeat (f_equal; try lia).
Qed.

Lemma precheck_events infile s :
  precheck infile s =
    Res (diagnostics 0 (drop (fpos s) (rows infile)) ++
         [EvStderr (MsgScanned (name infile)
            (count_rows (drop (fpos s) (rows infile))).1
            (count_rows (drop (fpos s) (rows infile))).2);
          EvSeek 0])
        (State (reqno s) 0)
        (inr (count_rows (drop (fpos s) (rows infile)))).
Proof.
  unfold precheck. rewrite run_bind. unfold for_reader.
  rewrite precheck_rows_events. cbn [value events final].
  destruct (count_rows (drop (fpos s) (rows infile))); reflexivity.
Qed.

Lemma processFile_checked_events infile url_param apiKey snooze s :
  seekable infile = true ->
  let counts := count_rows (drop (fpos s) (rows infile)) in
  let d := read_rows (rows infile) 0 tt
             (fun _ address _ => validate_row fList apiKey address)
             (State (reqno s) 0) in
  processFile infile url_param apiKey snooze false s =
  Res (diagnostics 0 (drop (fpos s) (rows infile)) ++
       [EvStderr (MsgScanned (name infile) counts.1 counts.2);
        EvSeek 0;
        EvWriteRow (DictWriter.header fList);
        EvPbarOpen counts.1] ++
       events d ++ EvPbarClose ::
       match value d with inr _ => closing | inl _ => [] end)
      (final d) (value d).
Proof.
  intros Hseek. cbn zeta.
  unfold processFile. rewrite Hseek. cbn [negb andb].
  erewrite bind_ok;
    [|erewrite bind_ok by apply precheck_events; reflexivity].
  erewrite bind_ok by reflexivity.
  erewrite bind_ok by reflexivity.
  rewrite run_bind, validateRecipients_run.
  cbn [value events final fpos reqno app]. rewrite drop_0.
  destruct (value (read_rows _ _ _ _ _)) as [e|[]];
    cbn [value events final app]; rewrite <- !app_assoc;
    cbn [app]; rewrite ?app_nil_r; reflexivity.
Qed.

(** ** More about the two functions as wholes *)

Lemma stderr_app (a b : list event) : stderr (a ++ b) = stderr a ++ stderr b.
Proof. unfold stderr. apply omap_app. Qed.

Lemma diagnostics_stderr ln rs :
  Forall (fun e => is_stderr e = true) (diagnostics ln rs).
Proof.
  revert ln. induction rs as [|r rs IH]; intros ln; [constructor|].
  simpl. apply Forall_app. split; [|apply IH].
  destruct r as [|recip [|? ?]]; [constructor| |constructor].
  destruct (validate_email recip); by repeat constructor.
Qed.

Lemma diagnostics_not_closing ln rs :
  Forall (fun e => is_closing e = false) (diagnostics ln rs).
Proof.
  revert ln. induction rs as [|r rs IH]; intros ln; [constructor|].
  simpl. apply Forall_app. split; [|apply IH].
  destruct r as [|recip [|? ?]]; [constructor| |constructor].
  destruct (validate_email recip); by repeat constructor.
Qed.

Lemma diagnostics_elem ln rs k recip e :
  EvStderr (MsgInvalid k recip e) ∈ diagnostics ln rs <->
  exists j, k = S (ln + j) /\ rs !! j = Some [recip] /\
            validate_email recip = Some e.
Proof.
  revert ln. induction rs as [|r rs IH]; intros ln.
  - simpl. split; [intros H; by apply elem_of_nil in H|].
    intros (j & _ & Hj & _). discriminate.
  - simpl diagnostics. rewrite elem_of_app, IH. split.
    + intros [Hhere|(j & -> & Hj & He)].
      * exists 0. destruct r as [|recip' [|? ?]];
          [by apply elem_of_nil in Hhere| |by apply elem_of_nil in Hhere].
        destruct (validate_email recip') eqn:Hv;
          [|by apply elem_of_nil in Hhere].
        apply list_elem_of_singleton in Hhere. injection Hhere as -> -> ->.
        rewrite Nat.add_0_r. by repeat split.
      * exists (S j). split; [lia|]. by split.
    + intros ([|j] & -> & Hj & He).
      * left. simpl in Hj. injection Hj as ->. rewrite He, Nat.add_0_r.
        by left.
      * right. exists j. split; [lia|]. by split.
Qed.

Lemma diagnostics_count ln rs :
  length (stderr (diagnostics ln rs)) + length (List.filter malformed rs) =
  length (List.filter (fun r => negb (row_ok r)) rs).
Proof.
  revert ln. induction rs as [|r rs IH]; intros ln; [reflexivity|].
  simpl diagnostics. rewrite stderr_app, length_app. specialize (IH (S ln)).
  unfold malformed, row_ok in *. simpl List.filter.
  destruct r as [|recip [|? ?]]; simpl; [lia| |lia].
  destruct (validate_email recip); simpl; lia.
Qed.

Lemma count_rows_total rs :
  (count_rows rs).1 + (count_rows rs).2 = length rs.
Proof.
  unfold count_rows. simpl. induction rs as [|r rs IH]; [reflexivity|].
  simpl. destruct (row_ok r); simpl; lia.
Qed.

(** What the first branch of [processFile] is followed by never raises
    [UnboundLocalError], and the other branch raises nothing else. *)
Lemma processFile_mode infile url_param apiKey snooze skip_precheck s :
  value (processFile infile url_param apiKey snooze skip_precheck s) = inr tt ->
  seekable infile = true /\ skip_precheck = false.
Proof.
  destruct (seekable infile && negb skip_precheck) eqn:Hmode.
  - apply andb_true_iff in Hmode as [Hseek Hskip].
    apply negb_true_iff in Hskip. by split.
  - rewrite (processFile_skipped _ _ _ _ _ _ Hmode). discriminate.
Qed.

Lemma processFile_requests_prefix
    infile url_param apiKey snooze skip_precheck s :
  requests (events (processFile infile url_param apiKey snooze
                      skip_precheck s))
    `prefix_of` map (request_for apiKey) (concat (rows infile)).
Proof.
  destruct (seekable infile && negb skip_precheck) eqn:Hmode.
  - apply andb_true_iff in Hmode as [Hseek Hskip].
    apply negb_true_iff in Hskip. subst skip_precheck.
    rewrite (processFile_checked_events infile url_param apiKey snooze s Hseek).
    cbn [events].
    destruct (dispatch_chunks fList apiKey (rows infile) 0 (State (reqno s) 0))
      as (chunks & -> & Hpre & Hall).
    rewrite !requests_app, (chunks_requests _ _ _ Hall).
    rewrite (proj1 (stderr_only_silent _ (diagnostics_stderr 0 _))).
    assert (requests (EvPbarClose ::
              match value (read_rows (rows infile) 0 tt
                             (fun _ address _ => validate_row fList apiKey address)
                             (State (reqno s) 0))
              with inr _ => closing | inl _ => [] end) = []) as ->
      by (by destruct (value _)).
    cbn [requests omap app]. rewrite app_nil_r.
    destruct Hpre as [k ->]. rewrite map_app. by apply prefix_app_r.
  - rewrite (processFile_skipped _ _ _ _ _ _ Hmode). apply prefix_nil.
Qed.

Lemma validate_field_rows_le_progress fl apiKey i s :
  length (written (events (validate_field fl apiKey i s))) <=
  progress (events (validate_field fl apiKey i s)).
Proof.
  destruct (validate_field_written fl apiKey i s)
    as [->|(payload & Hs & _)]; [simpl; lia|].
  by rewrite (validate_field_success fl apiKey i s payload Hs).
Qed.

Lemma chunks_rows_le_progress fl apiKey (chunks : list (string * list event)) :
  Forall (field_chunk fl apiKey) chunks ->
  length (written (concat (chunks.*2))) <= progress (concat (chunks.*2)).
Proof.
  induction 1 as [|[i ev] chunks [s' Hc] _ IH]; [reflexivity|].
  rewrite fmap_cons, concat_cons, written_app, length_app, progress_app.
  cbn [snd fst] in *. rewrite Hc.
  pose proof (validate_field_rows_le_progress fl apiKey i s'). lia.
Qed.

(** ** Further properties of the script *)


(** The requests of a run, whether it returns or raises, are the requests
    for the first fields of the input, in the order of the input: no
    field is asked about twice or out of turn, and none after a field
    that raised. *)
Theorem requests_follow_the_input
    infile url_param apiKey snooze skip_precheck s :
  requests (events (processFile infile url_param apiKey snooze
                      skip_precheck s))
    `prefix_of` map (request_for apiKey) (concat (rows infile)).
Proof. apply processFile_requests_prefix. Qed.

(** A run that returns has sent one request for every field of the input
    and has, for each of them, either moved the progress bar by one or
    slept once, for 10 seconds; it has written no more rows than the bar
    has moved, has read the input to its end and has used one response
    per field. *)
Theorem returning_run_accounts_for_every_field
    infile url_param apiKey snooze skip_precheck s :
  let r := processFile infile url_param apiKey snooze skip_precheck s in
  value r = inr tt ->
  length (requests (events r)) = length (concat (rows infile)) /\
  progress (events r) + length (sleeps (events r)) =
    length (concat (rows infile)) /\
  Forall (fun n => n = 10%Z) (sleeps (events r)) /\
  length (written (events r)) <= S (progress (events r)) /\
  final r = State (reqno s + length (concat (rows infile)))
                  (length (rows infile)).
Proof.
  cbn zeta. intros Hv.
  destruct (processFile_mode _ _ _ _ _ _ Hv) as [Hseek ->].
  rewrite (processFile_checked_events infile url_param apiKey snooze s Hseek)
    in *.
  cbn [events value final] in *.
  set (d := read_rows (rows infile) 0 tt _ _) in *.
  destruct (dispatch_requests fList apiKey (rows infile) 0
              (State (reqno s) 0) Hv) as [Hreq Hfin].
  destruct (dispatch_balance fList apiKey (rows infile) 0
              (State (reqno s) 0) Hv) as [Hbal Hten].
  fold d in Hreq, Hfin, Hbal, Hten. rewrite Hv.
  pose proof (diagnostics_stderr 0 (drop (fpos s) (rows infile))) as Hdiag.
  assert (progress (diagnostics 0 (drop (fpos s) (rows infile))) = 0 /\
          sleeps (diagnostics 0 (drop (fpos s) (rows infile))) = [])
    as [Hp0 Hs0].
  { induction Hdiag as [|e tr He _ [IH1 IH2]]; [by split|].
    destruct e; try discriminate. by split. }
  destruct (stderr_only_silent _ Hdiag) as [Hr0 Hw0].
  set (mid := [EvStderr _; EvSeek 0; EvWriteRow _; EvPbarOpen _]).
  set (tl := EvPbarClose :: closing).
  assert (requests mid = [] /\ progress mid = 0 /\ sleeps mid = [] /\
          written mid = [DictWriter.header fList])
    as (Hr1 & Hp1 & Hs1 & Hw1) by (by repeat split).
  assert (requests tl = [] /\ progress tl = 0 /\ sleeps tl = [] /\
          written tl = [])
    as (Hr2 & Hp2 & Hs2 & Hw2) by (by repeat split).
  rewrite !requests_app, !progress_app, !sleeps_app, !written_app.
  rewrite Hr0, Hp0, Hs0, Hw0, Hr1, Hp1, Hs1, Hw1, Hr2, Hp2, Hs2, Hw2, Hreq.
  rewrite !app_nil_r, !app_nil_l, length_map, Nat.add_0_r.
  split; [reflexivity|]. split; [exact Hbal|]. split; [exact Hten|].
  split; [|rewrite Hfin; reflexivity].
  destruct (dispatch_chunks fList apiKey (rows infile) 0 (State (reqno s) 0))
    as (chunks & Hev & _ & Hall).
  fold d in Hev. rewrite Hev.
  pose proof (chunks_rows_le_progress _ _ _ Hall). cbn [app length]. lia.
Qed.

(** The scan of the first pass prints a diagnostic exactly for the rows of
    one field that the syntax check rejects, with the number of the line,
    the field and the reason; a row that does not have one field is
    counted without a diagnostic. *)
Theorem precheck_diagnostics infile s k recip e :
  EvStderr (MsgInvalid k recip e) ∈ events (precheck infile s) <->
  exists j, k = S j /\
            drop (fpos s) (rows infile) !! j = Some [recip] /\
            validate_email recip = Some e.
Proof.
  rewrite precheck_events. cbn [events]. rewrite elem_of_app.
  rewrite diagnostics_elem. split.
  - intros [Hd|Hl]; [exact Hd|].
    apply elem_of_cons in Hl as [?|Hl]; [discriminate|].
    apply list_elem_of_singleton in Hl. discriminate.
  - intros Hd. by left.
Qed.

(** The counts of the first pass: every row it reads is counted once, as
    OK or as bad, and the bad ones are the rows that got a diagnostic and
    the rows that do not have exactly one field.  (The one more line on
    standard error is the report of the counts.) *)
Theorem precheck_counts_every_row infile s count_ok count_bad :
  value (precheck infile s) = inr (count_ok, count_bad) ->
  count_ok + count_bad = length (drop (fpos s) (rows infile)) /\
  length (stderr (events (precheck infile s))) +
    length (List.filter malformed (drop (fpos s) (rows infile))) =
    S count_bad.
Proof.
  rewrite precheck_events. cbn [value events]. intros Hc.
  assert (count_rows (drop (fpos s) (rows infile)) = (count_ok, count_bad))
    as Hcounts by congruence.
  pose proof (count_rows_total (drop (fpos s) (rows infile))) as Htot.
  pose proof (diagnostics_count 0 (drop (fpos s) (rows infile))) as Hdiag.
  rewrite Hcounts in Htot. cbn [fst snd] in Htot. split; [exact Htot|].
  rewrite stderr_app, length_app.
  unfold count_rows in Hcounts. injection Hcounts as _ Hbad.
  rewrite Hbad in Hdiag. simpl. lia.
Qed.

(** How a run ends.  A run that returns ends with closing the input and
    the output and printing [Done], all of it twice, and has done none of
    it before; a run that raises has closed nothing and has not printed
    [Done], and when the first pass was run its last act was to close the
    progress bar. *)
Theorem run_closes_only_when_it_returns
    infile url_param apiKey snooze skip_precheck s :
  let r := processFile infile url_param apiKey snooze skip_precheck s in
  (value r = inr tt ->
   exists tr, events r = tr ++ closing /\
              Forall (fun e => is_closing e = false) tr) /\
  (forall e, value r = inl e ->
     Forall (fun e => is_closing e = false) (events r) /\
     (seekable infile && negb skip_precheck = true ->
      last (events r) = Some EvPbarClose)).
Proof.
  cbn zeta. destruct (seekable infile && negb skip_precheck) eqn:Hmode.
  - apply andb_true_iff in Hmode as [Hseek Hskip].
    apply negb_true_iff in Hskip. subst skip_precheck.
    rewrite (processFile_checked_events infile url_param apiKey snooze s Hseek).
    cbn [events value].
    destruct (dispatch_chunks fList apiKey (rows infile) 0 (State (reqno s) 0))
      as (chunks & Hev & _ & Hall).
    set (d := read_rows (rows infile) 0 tt _ _) in *.
    assert (Forall (fun e => is_closing e = false) (events d)) as Hd.
    { rewrite Hev. eapply Forall_impl; [apply (chunks_kinds _ _ _ Hall)|].
      intros e He. by destruct e as [| [] | | | | | | | | |]. }
    assert (Forall (fun e => is_closing e = false)
              (diagnostics 0 (drop (fpos s) (rows infile)) ++
               [EvStderr (MsgScanned (name infile)
                  (count_rows (drop (fpos s) (rows infile))).1
                  (count_rows (drop (fpos s) (rows infile))).2);
                EvSeek 0; EvWriteRow (DictWriter.header fList);
                EvPbarOpen (count_rows (drop (fpos s) (rows infile))).1] ++
               events d ++ [EvPbarClose])) as Hall'.
    { apply Forall_app. split; [apply diagnostics_not_closing|].
      apply Forall_app. split; [by repeat constructor|].
      apply Forall_app. split; [exact Hd|by repeat constructor]. }
    split.
    + intros Hv. rewrite Hv. eexists. split; [|exact Hall'].
      rewrite <- !app_assoc. reflexivity.
    + intros e Hv. rewrite Hv. split.
      * exact Hall'.
      * intros _. rewrite !app_assoc. apply last_snoc.
  - rewrite (processFile_skipped _ _ _ _ _ _ Hmode). cbn [events value].
    split; [discriminate|]. intros e _. split; [by repeat constructor|].
    discriminate.
Qed.

(** With [--skip_precheck], the script of the module raises before any
    request, with or without [--email]. *)
Theorem main_with_skip_precheck_raises a s :
  args_skip_precheck a = true ->
  main a s =
    Res [EvStderr MsgSkipping; EvWriteRow (DictWriter.header fList)] s
        (inl (UnboundLocalError "count_ok")).
Proof.
  intros Hskip. unfold main. rewrite Hskip.
  destruct (args_email a) as [[|c email]|];
    apply processFile_skipped; apply andb_false_r.
Qed.

(** Every request the script of the module sends goes to the cleaned
    host followed by the fixed path, joined with a field, and carries an
    empty [Authorization] header: the key is the empty string the module
    binds [apiKey] to. *)
Theorem main_requests_carry_no_key a s :
  url = module_url ->
  Forall (fun r => exists i,
            r = (urljoin (hostCleanup (getenv "SPARKPOST_HOST"
                                         "api.sparkpost.com")
                          +:+ "/api/v1/recipient-validation/single/") i,
                 [("Authorization", EmptyString);
                  ("Accept", "application/json")]))
         (requests (events (main a s))).
Proof.
  intros Hurl. apply Forall_forall. intros r Hr.
  assert (exists infile,
            r ∈ map (request_for apiKey) (concat (rows infile)))
    as (infile & Hin).
  { unfold main in Hr. destruct (args_email a) as [[|c email]|];
      eexists; (eapply elem_of_prefix;
                [exact Hr|apply processFile_requests_prefix]). }
  apply list_elem_of_In, in_map_iff in Hin as (i & <- & _).
  exists i. unfold request_for. by rewrite Hurl.
Qed.

(** [--email]: the addresses of a non-empty argument are read from a
    seekable text in which the commas were made newlines, so without
    [--skip_precheck] the first pass runs on it, reporting under the name
    [from command line], and a run that returns has sent one request per
    field of its rows.  An empty argument is taken as none: the run is
    the run on the input file. *)
Theorem main_email_argument :
  (forall a s email,
      args_email a = Some email -> email <> EmptyString ->
      args_skip_precheck a = false ->
      value (main a s) = inr tt ->
      requests (events (main a s)) =
        map (request_for apiKey)
            (concat (csv_rows (replace_char "," "010" email))) /\
      EvStderr (MsgScanned "from command line"
                  (count_rows (drop (fpos s)
                     (csv_rows (replace_char "," "010" email)))).1
                  (count_rows (drop (fpos s)
                     (csv_rows (replace_char "," "010" email)))).2)
        ∈ events (main a s)) /\
  (forall a s,
      args_email a = None \/ args_email a = Some EmptyString ->
      main a s =
        processFile (args_infile a) module_url apiKey snooze
          (args_skip_precheck a) s).
Proof.
  split.
  - intros a s email Hemail Hne Hskip. unfold main. rewrite Hemail, Hskip.
    destruct email as [|c email]; [by destruct Hne|].
    set (src := cmdInfile (String c email)). intros Hv.
    rewrite (processFile_checked_events src module_url apiKey snooze s eq_refl)
      in *.
    cbn [events value] in *.
    destruct (dispatch_requests fList apiKey (rows src) 0
                (State (reqno s) 0) Hv) as [Hreq _].
    split.
    + rewrite !requests_app, Hreq.
      rewrite (proj1 (stderr_only_silent _ (diagnostics_stderr 0 _))).
      rewrite Hv. cbn. by rewrite app_nil_r.
    + apply elem_of_app. right. by left.
  - intros a s [Hnone|Hempty]; unfold main;
      [rewrite Hnone|rewrite Hempty]; reflexivity.
Qed.

(** A 200 response whose body is falsy ([null], [false], [0], an empty
    string, list or object) or is an object, list or string in which
    ['results'] is not found takes the [else] branch: the body is printed
    on standard error, the bar moves by one, nothing is written and
    nothing is raised. *)
Theorem unusable_200_body_is_logged fl apiKey i s content :
  api (reqno s) = Response 200 (Some content) ->
  truthy content = false \/ contains "results" content = inr false ->
  validate_field fl apiKey i s =
    Res [EvGet (urljoin url i) (h apiKey);
         EvStderr (MsgErrorResponse content);
         EvPbarUpdate 1]
        (State (S (reqno s)) (fpos s)) (inr tt).
Proof.
  intros Hapi Hcase. unfold validate_field. run. rewrite Hapi. simpl.
  destruct (truthy content); simpl; [|reflexivity].
  destruct Hcase as [?|Hin]; [discriminate|]. rewrite Hin. reflexivity.
Qed.

Lemma diagnostics_blank ln rs :
  Forall (fun r => r = []) rs -> diagnostics ln rs = [].
Proof.
  intros Hblank. revert ln.
  induction Hblank as [|r rs -> _ IH]; intros ln; [reflexivity|].
  simpl. apply IH.
Qed.

Lemma count_rows_blank rs :
  Forall (fun r => r = []) rs -> count_rows rs = (0, length rs).
Proof.
  unfold count_rows. induction 1 as [|r rs -> _ IH]; [reflexivity|].
  injection IH as IH1 IH2. simpl. by rewrite IH1, IH2.
Qed.

Lemma dispatch_blank fl apiKey rs ln s :
  Forall (fun r => r = []) rs ->
  read_rows rs ln tt (fun _ address _ => validate_row fl apiKey address) s =
    Res [] (State (reqno s) (fpos s + length rs)) (inr tt).
Proof.
  intros Hblank. revert ln s.
  induction Hblank as [|r rs -> _ IH]; intros ln s.
  - destruct s; simpl. by rewrite Nat.add_0_r.
  - rewrite read_rows_cons. cbn [validate_row for_each].
    rewrite run_ret. cbn [value events final]. rewrite IH.
    cbn [events final value app reqno fpos length].
    repeat (f_equal; try lia).
Qed.

(** An input of blank lines only, the empty input among them: the first
    pass counts every line as bad, the header is written, the progress
    bar is opened and closed on nothing, no request is sent and the run
    returns. *)
Theorem blank_input_sends_nothing infile url_param apiKey snooze s :
  seekable infile = true ->
  fpos s = 0 ->
  Forall (fun r => r = []) (rows infile) ->
  processFile infile url_param apiKey snooze false s =
    Res ([EvStderr (MsgScanned (name infile) 0 (length (rows infile)));
          EvSeek 0;
          EvWriteRow (DictWriter.header fList);
          EvPbarOpen 0;
          EvPbarClose] ++ closing)
        (State (reqno s) (length (rows infile))) (inr tt).
Proof.
  intros Hseek Hpos Hblank.
  rewrite (processFile_checked_events infile url_param apiKey snooze s Hseek).
  rewrite Hpos, drop_0.
  rewrite (diagnostics_blank _ _ Hblank), (count_rows_blank _ Hblank),
    (dispatch_blank _ _ _ _ _ Hblank).
  reflexivity.
Qed.

(** ** The response apart from the request, and the output as a stream *)

Lemma validate_field_handle fl apiKey i s :
  validate_field fl apiKey i s =
  (resp ← session_get (urljoin url i) (h apiKey);
   handle_response fl i resp) s.
Proof. reflexivity. Qed.



Lemma handle_response_no_results fl i resp s content :
  resp = Response 200 (Some content) ->
  truthy content = false \/ contains "results" content = inr false ->
  handle_response fl i resp s =
    Res [EvStderr (MsgErrorResponse content); EvPbarUpdate 1] s (inr tt).
Proof.
  intros -> Hcase. unfold handle_response. run.
  destruct (truthy content); simpl; [|reflexivity].
  destruct Hcase as [?|Hin]; [discriminate|]. rewrite Hin. reflexivity.
Qed.


Lemma payload_of_success r payload :
  payload_of r = Some payload <-> success r payload.
Proof.
  unfold payload_of, success. split.
  - destruct r as [code [[| | | | | |content]|]]; simpl;
      destruct (code =? 200)%Z eqn:Hc; try discriminate.
    apply Z.eqb_eq in Hc. subst code.
    destruct (content !! "results") as [[| | | | | |p]|] eqn:Hk;
      try discriminate.
    intros [= ->]. by exists content.
  - intros (content & -> & Hk). simpl. by rewrite Hk.
Qed.

Lemma output_app b (x y : list event) :
  output b (x ++ y) = output b x ++ output b y.
Proof. unfold output. apply omap_app. Qed.




Lemma stderr_only_output b (tr : list event) :
  Forall (fun e => is_stderr e = true) tr -> output b tr = [].
Proof.
  induction 1 as [|e tr He _ IH]; [reflexivity|].
  destruct e; try discriminate. exact IH.
Qed.

(** What a field leaves in the output is decided by the response to its
    request. *)
Lemma validate_field_output b apiKey i s :
  output b (events (validate_field fList apiKey i s)) =
    field_lines b i (api (reqno s)).
Proof.
  unfold field_lines.
  destruct (payload_of (api (reqno s))) as [payload|] eqn:Hp.
  - apply payload_of_success in Hp.
    by rewrite (validate_field_success fList apiKey i s payload Hp).
  - destruct (api (reqno s)) as [code [content|]] eqn:Hapi; cbn [body status_code].
    2:{ rewrite validate_field_not_json by (by rewrite Hapi). reflexivity. }
    destruct (code =? 200)%Z eqn:Hcode.
    2:{ erewrite validate_field_non_200 by (rewrite Hapi; eauto).
        rewrite Hapi. cbn [status_code]. rewrite andb_true_r.
        destruct b; reflexivity. }
    rewrite andb_false_r.
    unfold payload_of in Hp. cbn [body status_code] in Hp. rewrite Hcode in Hp.
    destruct content as [| | | | |l|d];
      try (unfold validate_field; run; rewrite Hapi; simpl; rewrite ?Hcode;
           simpl; repeat case_scrutinee; reflexivity).
    destruct (d !! "results") as [[| | | | | |payload]|] eqn:Hk;
      try discriminate;
      unfold validate_field; run; rewrite Hapi; simpl; rewrite ?Hcode; simpl;
      destruct (bool_decide (d = ∅)); simpl; try reflexivity;
      destruct (bool_decide (is_Some (d !! "results"))); simpl;
      rewrite ?Hk; reflexivity.
Qed.

(** The fields of a row, as far as the row gets. *)
Lemma validate_row_trace apiKey address s :
  exists n,
    n <= length address /\
    requests (events (validate_row fList apiKey address s)) =
      map (request_for apiKey) (take n address) /\
    (forall b, output b (events (validate_row fList apiKey address s)) =
               lines_of b (reqno s) (take n address)) /\
    final (validate_row fList apiKey address s) =
      State (reqno s + n) (fpos s) /\
    (value (validate_row fList apiKey address s) = inr tt ->
     n = length address).
Proof.
  unfold validate_row. revert s.
  induction address as [|i address IH]; intros s.
  - exists 0. destruct s; simpl. rewrite Nat.add_0_r. by repeat split.
  - simpl for_each. rewrite run_bind.
    destruct (validate_field_once fList apiKey i s) as [Hreq Hfin].
    pose proof (fun b => validate_field_output b apiKey i s) as Hout.
    destruct (value (validate_field fList apiKey i s)) as [e|[]];
      cbn [events final value].
    + exists 1. split; [simpl; lia|]. split; [exact Hreq|].
      split; [intros b; rewrite Hout; simpl; by rewrite app_nil_r|].
      split; [rewrite Hfin; f_equal; lia|discriminate].
    + rewrite Hfin. destruct (IH (State (S (reqno s)) (fpos s)))
        as (n & Hn & Hr & Ho & Hf & Hv).
      exists (S n). split; [simpl; lia|].
      split; [by rewrite requests_app, Hreq, Hr|].
      split; [intros b; by rewrite output_app, Hout, Ho|].
      split; [rewrite Hf; simpl; f_equal; lia|].
      intros Hval. simpl. f_equal. by apply Hv.
Qed.

Lemma lines_of_app b n (x y : list string) :
  lines_of b n (x ++ y) = lines_of b n x ++ lines_of b (n + length x) y.
Proof.
  revert n. induction x as [|i x IH]; intros n.
  - simpl. by rewrite Nat.add_0_r.
  - simpl. rewrite IH, <- app_assoc. do 3 f_equal. lia.
Qed.

(** The same for the rows of the input, field after field. *)
Lemma dispatch_trace apiKey rs ln s :
  let d := read_rows rs ln tt
             (fun _ address _ => validate_row fList apiKey address) s in
  exists n,
    n <= length (concat rs) /\
    requests (events d) = map (request_for apiKey) (take n (concat rs)) /\
    (forall b, output b (events d) = lines_of b (reqno s) (take n (concat rs))) /\
    (value d = inr tt -> n = length (concat rs)).
Proof.
  cbn zeta. revert ln s.
  induction rs as [|address rs IH]; intros ln s.
  - exists 0. by repeat split.
  - rewrite read_rows_cons.
    set (s1 := State (reqno s) (S (fpos s))).
    destruct (validate_row_trace apiKey address s1)
      as (n1 & Hn1 & Hr1 & Ho1 & Hf1 & Hv1).
    simpl concat. rewrite length_app.
    destruct (value (validate_row fList apiKey address s1)) as [e|[]];
      cbn [events final value].
    + exists n1. split; [lia|].
      rewrite take_app_le by lia.
      split; [exact Hr1|]. split; [exact Ho1|discriminate].
    + specialize (Hv1 eq_refl). subst n1. rewrite Hf1.
      destruct (IH (S ln) (State (reqno s1 + length address) (fpos s1)))
        as (n2 & Hn2 & Hr2 & Ho2 & Hv2).
      exists (length address + n2). split; [lia|].
      rewrite take_app_add. rewrite take_ge in Hr1, Ho1 by lia.
      split; [by rewrite requests_app, Hr1, Hr2, map_app|].
      split; [intros b; by rewrite output_app, Ho1, Ho2, lines_of_app|].
      intros Hval. by rewrite (Hv2 Hval).
Qed.

(** And for [processFile]: the header, then the fields as far as the run
    gets. *)
Lemma processFile_trace infile url_param apiKey snooze skip_precheck s :
  let r := processFile infile url_param apiKey snooze skip_precheck s in
  exists n,
    n <= length (concat (rows infile)) /\
    requests (events r) =
      map (request_for apiKey) (take n (concat (rows infile))) /\
    (forall b, output b (events r) =
               LRow (DictWriter.header fList) ::
               lines_of b (reqno s) (take n (concat (rows infile)))) /\
    (value r = inr tt -> n = length (concat (rows infile))).
Proof.
  cbn zeta. destruct (seekable infile && negb skip_precheck) eqn:Hmode.
  - apply andb_true_iff in Hmode as [Hseek Hskip].
    apply negb_true_iff in Hskip. subst skip_precheck.
    rewrite (processFile_checked_events infile url_param apiKey snooze s Hseek).
    cbn [events value].
    destruct (dispatch_trace apiKey (rows infile) 0 (State (reqno s) 0))
      as (n & Hn & Hr & Ho & Hv).
    set (d := read_rows (rows infile) 0 tt _ _) in *.
    pose proof (diagnostics_stderr 0 (drop (fpos s) (rows infile))) as Hdiag.
    exists n. split; [exact Hn|].
    assert (requests (EvPbarClose ::
              match value d with inr _ => closing | inl _ => [] end) = [] /\
            forall b, output b (EvPbarClose ::
              match value d with inr _ => closing | inl _ => [] end) = [])
      as [Hr2 Ho2] by (by destruct (value d)).
    split; [|split; [|exact Hv]].
    + rewrite !requests_app, Hr, Hr2.
      rewrite (proj1 (stderr_only_silent _ Hdiag)).
      cbn. by rewrite app_nil_r.
    + intros b. rewrite !output_app, Ho, Ho2, (stderr_only_output b _ Hdiag).
      cbn. by rewrite app_nil_r.
  - rewrite (processFile_skipped _ _ _ _ _ _ Hmode). exists 0.
    split; [lia|]. by repeat split.
Qed.




(** ** Which response stops a run *)





(** A checked run, reduced to its second pass. *)
Lemma processFile_checked_dispatch infile url_param apiKey snooze s :
  seekable infile = true ->
  let r := processFile infile url_param apiKey snooze false s in
  let d := read_rows (rows infile) 0 tt
             (fun _ address _ => validate_row fList apiKey address)
             (State (reqno s) 0) in
  requests (events r) = requests (events d) /\
  written (events r) = DictWriter.header fList :: written (events d) /\
  value r = value d.
Proof.
  intros Hseek. cbn zeta.
  rewrite (processFile_checked_events infile url_param apiKey snooze s Hseek).
  cbn [events value].
  set (d := read_rows (rows infile) 0 tt _ _).
  pose proof (diagnostics_stderr 0 (drop (fpos s) (rows infile))) as Hdiag.
  assert (requests (EvPbarClose ::
            match value d with inr _ => closing | inl _ => [] end) = [] /\
          written (EvPbarClose ::
            match value d with inr _ => closing | inl _ => [] end) = [])
    as [Hr2 Hw2] by (by destruct (value d)).
  split; [|split; [|reflexivity]].
  - rewrite !requests_app, Hr2, (proj1 (stderr_only_silent _ Hdiag)).
    cbn. by rewrite app_nil_r.
  - rewrite !written_app, Hw2, (proj2 (stderr_only_silent _ Hdiag)).
    cbn. by rewrite app_nil_r.
Qed.


(** ** The claims about responses, rows and requests *)



(** C5 (as amended).  A 200 response whose body is falsy, or is an
    object, a list or a string in which ['results'] is not found: the
    body is logged on standard error, no row is written, the field is
    asked about once and not again, the progress counter moves by one and
    nothing is raised.  A 200 body that is truthy and not an object, and
    in which ['results'] is not looked for in vain (a number, [true], a
    string in which it occurs, a list that holds it), raises [TypeError]
    after the one request: nothing is logged and the counter stays. *)
Theorem C5_body_without_results :
  (forall fl apiKey i s content,
      api (reqno s) = Response 200 (Some content) ->
      truthy content = false \/ contains "results" content = inr false ->
      stderr (events (validate_field fl apiKey i s)) =
        [MsgErrorResponse content] /\
      written (events (validate_field fl apiKey i s)) = [] /\
      requests (events (validate_field fl apiKey i s)) =
        [request_for apiKey i] /\
      sleeps (events (validate_field fl apiKey i s)) = [] /\
      progress (events (validate_field fl apiKey i s)) = 1 /\
      value (validate_field fl apiKey i s) = inr tt) /\
  (forall fl apiKey i s content,
      api (reqno s) = Response 200 (Some content) ->
      truthy content = true ->
      (forall d, content <> PDict d) ->
      contains "results" content <> inr false ->
      validate_field fl apiKey i s =
        Res [EvGet (urljoin url i) (h apiKey)]
            (State (S (reqno s)) (fpos s)) (inl TypeError)).
Proof.
  split.
  - intros fl apiKey i s content Hapi Hcase.
    rewrite validate_field_handle, run_bind. cbn [session_get value final events].
    rewrite Hapi.
    rewrite (handle_response_no_results fl i _ _ content eq_refl Hcase).
    repeat split.
  - intros fl apiKey i s content Hapi Ht Hobj Hin.
    rewrite validate_field_handle, run_bind. cbn [session_get value final events].
    rewrite Hapi. unfold handle_response. run. rewrite Ht.
    destruct content as [| | | | | |d]; simpl in *; try reflexivity;
      try discriminate.
    + destruct (occurs_in "results" s0); simpl; [reflexivity|congruence].
    + destruct (existsb (eq_str "results") l); simpl; [reflexivity|congruence].
    + by destruct (Hobj d).
Qed.


(** C9 (as amended).  What the script hands to [session.get] for a field
    is the URL [urljoin(url, field)], the field as it was read, and the
    headers [Authorization: apiKey] and [Accept: application/json]; and
    every request of a run is the request for a field of the input.  The
    script has no step that percent-encodes the field. *)
Theorem C9_url_handed_to_session_get :
  (forall fl apiKey i s,
      requests (events (validate_field fl apiKey i s)) =
        [(urljoin url i,
          [("Authorization", apiKey); ("Accept", "application/json")])]) /\
  (forall infile url_param apiKey snooze skip_precheck s k req,
      requests (events (processFile infile url_param apiKey snooze
                          skip_precheck s)) !! k = Some req ->
      exists i,
        concat (rows infile) !! k = Some i /\
        req = (urljoin url i,
               [("Authorization", apiKey); ("Accept", "application/json")])).
Proof.
  split.
  - intros fl apiKey i s. apply validate_field_once.
  - intros infile url_param apiKey snooze skip_precheck s k req.
    destruct (processFile_trace infile url_param apiKey snooze skip_precheck s)
      as (n & Hn & -> & _).
    rewrite list_lookup_fmap.
    destruct (take n (concat (rows infile)) !! k) as [i|] eqn:Hk;
      [|discriminate].
    intros [= <-]. apply lookup_take_Some in Hk as [Hk _]. by exists i.
Qed.



End Script.

(** ** The claims on concrete runs *)

Import Fixture.

(** C1 (the code does otherwise).  One address, a first answer 503 and a
    second answer that would succeed: the script prints the status and
    that it snoozes before trying again, sleeps 10, and goes on to the
    end of the input.  One request was sent, the second answer was never
    asked for, and only the header was written. *)
Theorem C1_non_200_is_not_retried :
  processFile has_at urljoin_segment base_url
    (answers [status_only 503] (ok [("valid", PBool true)]))
    (file [["a@example.com"]]) base_url "KEY" 10 false start =
  Res [EvStderr (MsgScanned "recipients.csv" 1 0);
       EvSeek 0;
       EvWriteRow (DictWriter.header fList);
       EvPbarOpen 1;
       EvGet (base_url +:+ "a@example.com")
             [("Authorization", "KEY"); ("Accept", "application/json")];
       EvStdout (OutStatus 503);
       EvStdout OutSnoozing;
       EvSleep 10;
       EvPbarClose;
       EvCloseIn; EvCloseOut; EvStderr MsgDone;
       EvCloseIn; EvCloseOut; EvStderr MsgDone]
      (State 1 1) (inr tt).
Proof. vm_compute. reflexivity. Qed.




(** C8 on two good rows, on a row of two fields and on a rejected
    address. *)
Lemma C8_witness :
  (fpos start = 0 /\
   Forall (fun r => exists recip, r = [recip] /\ has_at recip = None)
          (rows (file [["a@example.com"]; ["b@example.com"]])) /\
   value (precheck has_at (file [["a@example.com"]; ["b@example.com"]]) start) =
     inr (2, 0)) /\
  (length ["a@example.com"; "b@example.com"] <> 1 /\
   value (precheck_row has_at 1 ["a@example.com"; "b@example.com"] (0, 0) start) =
     inr (0, 1)) /\
  (has_at "not-an-address" =
     Some "The email address is not valid. It must have exactly one @-sign." /\
   value (precheck_row has_at 2 ["not-an-address"] (1, 0) start) = inr (1, 1)).
Proof.
  assert (Forall (fun r => exists recip, r = [recip] /\ has_at recip = None)
                 (rows (file [["a@example.com"]; ["b@example.com"]]))) as Hall.
  { repeat constructor; eexists; (split; [reflexivity|]); reflexivity. }
  split; [|split].
  - split; [reflexivity|]. split; [exact Hall|].
    exact (proj1 (proj1 (C8_precheck_counts has_at)
                    (file [["a@example.com"]; ["b@example.com"]]) start
                    eq_refl Hall)).
  - split; [discriminate|].
    apply (proj2 (C8_precheck_counts has_at)). left. discriminate.
  - split; [reflexivity|].
    apply (proj2 (C8_precheck_counts has_at)). right.
    eexists _, _. split; reflexivity.
Defined.



(** C5, where the claim fails: 200 bodies that are JSON and have no
    [results] key, the number [5], [true], the string [no results here]
    and the list [["results"]]: each raises [TypeError] after the one
    request, nothing is logged for it and the progress counter stays. *)
Lemma C5_counterexample :
  validate_field urljoin_segment base_url
    (always (Response 200 (Some (PInt 5)))) fList "KEY" "a@example.com" start =
    Res [EvGet (base_url +:+ "a@example.com")
           [("Authorization", "KEY"); ("Accept", "application/json")]]
        (State 1 0) (inl TypeError) /\
  validate_field urljoin_segment base_url
    (always (Response 200 (Some (PBool true)))) fList "KEY" "a@example.com"
    start =
    Res [EvGet (base_url +:+ "a@example.com")
           [("Authorization", "KEY"); ("Accept", "application/json")]]
        (State 1 0) (inl TypeError) /\
  validate_field urljoin_segment base_url
    (always (Response 200 (Some (PStr "no results here")))) fList "KEY"
    "a@example.com" start =
    Res [EvGet (base_url +:+ "a@example.com")
           [("Authorization", "KEY"); ("Accept", "application/json")]]
        (State 1 0) (inl TypeError) /\
  validate_field urljoin_segment base_url
    (always (Response 200 (Some (PList [PStr "results"])))) fList "KEY"
    "a@example.com" start =
    Res [EvGet (base_url +:+ "a@example.com")
           [("Authorization", "KEY"); ("Accept", "application/json")]]
        (State 1 0) (inl TypeError) /\
  stderr (events (processFile has_at urljoin_segment base_url
                    (always (Response 200 (Some (PInt 5))))
                    (file [["a@example.com"]]) base_url "KEY" 10 false start)) =
    [MsgScanned "recipients.csv" 1 0] /\
  progress (events (processFile has_at urljoin_segment base_url
                      (always (Response 200 (Some (PInt 5))))
                      (file [["a@example.com"]]) base_url "KEY" 10 false
                      start)) = 0 /\
  raised (processFile has_at urljoin_segment base_url
            (always (Response 200 (Some (PInt 5))))
            (file [["a@example.com"]]) base_url "KEY" 10 false start) =
    Some TypeError.
Proof. repeat split; vm_compute; reflexivity. Qed.

(** C5 on the 200 bodies [{message: ok}] and [5]. *)
Lemma C5_witness :
  (always (Response 200 (Some (PDict no_results))) (reqno start) =
     Response 200 (Some (PDict no_results)) /\
   contains "results" (PDict no_results) = inr false /\
   stderr (events (validate_field urljoin_segment base_url
                     (always (Response 200 (Some (PDict no_results))))
                     fList "KEY" "a@example.com" start)) =
     [MsgErrorResponse (PDict no_results)] /\
   written (events (validate_field urljoin_segment base_url
                      (always (Response 200 (Some (PDict no_results))))
                      fList "KEY" "a@example.com" start)) = [] /\
   requests (events (validate_field urljoin_segment base_url
                       (always (Response 200 (Some (PDict no_results))))
                       fList "KEY" "a@example.com" start)) =
     [request_for urljoin_segment base_url "KEY" "a@example.com"] /\
   sleeps (events (validate_field urljoin_segment base_url
                     (always (Response 200 (Some (PDict no_results))))
                     fList "KEY" "a@example.com" start)) = [] /\
   progress (events (validate_field urljoin_segment base_url
                       (always (Response 200 (Some (PDict no_results))))
                       fList "KEY" "a@example.com" start)) = 1 /\
   value (validate_field urljoin_segment base_url
            (always (Response 200 (Some (PDict no_results))))
            fList "KEY" "a@example.com" start) = inr tt) /\
  (always (Response 200 (Some (PInt 5))) (reqno start) =
     Response 200 (Some (PInt 5)) /\
   truthy (PInt 5) = true /\
   validate_field urljoin_segment base_url
     (always (Response 200 (Some (PInt 5)))) fList "KEY" "a@example.com"
     start =
     Res [EvGet (urljoin_segment base_url "a@example.com") (h "KEY")]
         (State 1 0) (inl TypeError)).
Proof.
  assert (contains "results" (PDict no_results) = inr false) as Hin
    by (vm_compute; reflexivity).
  split.
  - split; [reflexivity|]. split; [exact Hin|].
    apply (proj1 (C5_body_without_results urljoin_segment base_url
                    (always (Response 200 (Some (PDict no_results)))))
                 fList "KEY" "a@example.com" start (PDict no_results));
      [reflexivity|by right].
  - split; [reflexivity|]. split; [reflexivity|].
    apply (proj2 (C5_body_without_results urljoin_segment base_url
                    (always (Response 200 (Some (PInt 5)))))
                 fList "KEY" "a@example.com" start (PInt 5));
      [reflexivity|reflexivity|discriminate|discriminate].
Defined.


(** C7 (as amended).  On a seekable input with the first pass run, in
    every run: the scan writes to standard error only, the counts are
    reported, the input is sought back to its start, and only then are
    requests sent.  They are the requests for the first fields of the
    input, in order and whatever the syntax checker said of them, for all
    the fields when the run returns; and with another syntax checker the
    run sends the same requests, writes the same rows and ends the same
    way. *)
Theorem C7_precheck_rewinds_and_never_filters
    (validate_email : string -> option string)
    (urljoin : string -> string -> string) (url : string)
    (api : nat -> response) infile url_param apiKey snooze s :
  seekable infile = true ->
  exists pre post n,
    events (processFile validate_email urljoin url api infile url_param
              apiKey snooze false s) =
      pre ++ [EvStderr (MsgScanned (name infile)
                (count_rows validate_email (drop (fpos s) (rows infile))).1
                (count_rows validate_email (drop (fpos s) (rows infile))).2);
              EvSeek 0] ++ post /\
    Forall (fun e => is_stderr e = true) pre /\
    n <= length (concat (rows infile)) /\
    requests post =
      map (request_for urljoin url apiKey) (take n (concat (rows infile))) /\
    (value (processFile validate_email urljoin url api infile url_param
              apiKey snooze false s) = inr tt ->
     n = length (concat (rows infile))) /\
    forall validate_email' : string -> option string,
      requests (events (processFile validate_email' urljoin url api infile
                          url_param apiKey snooze false s)) =
        requests post /\
      written (events (processFile validate_email' urljoin url api infile
                         url_param apiKey snooze false s)) =
        written post /\
      value (processFile validate_email' urljoin url api infile url_param
               apiKey snooze false s) =
        value (processFile validate_email urljoin url api infile url_param
                 apiKey snooze false s).
Proof.
  intros Hseek.
  rewrite (processFile_checked_events validate_email urljoin url api infile
             url_param apiKey snooze s Hseek).
  cbn [events value].
  destruct (dispatch_trace urljoin url api apiKey (rows infile) 0
              (State (reqno s) 0)) as (n & Hn & Hr & _ & Hv).
  cbn zeta in Hr, Hv.
  set (d := read_rows (rows infile) 0 tt _ _) in *.
  set (tl := EvPbarClose :: match value d with inr _ => closing | inl _ => [] end).
  assert (requests tl = [] /\ written tl = []) as [Hr2 Hw2]
    by (subst tl; by destruct (value d)).
  exists (diagnostics validate_email 0 (drop (fpos s) (rows infile))),
    ([EvWriteRow (DictWriter.header fList);
      EvPbarOpen (count_rows validate_email (drop (fpos s) (rows infile))).1] ++
     events d ++ tl), n.
  assert (requests ([EvWriteRow (DictWriter.header fList);
                     EvPbarOpen (count_rows validate_email
                                   (drop (fpos s) (rows infile))).1] ++
                    events d ++ tl) = requests (events d)) as Hpost.
  { rewrite !requests_app, Hr2. cbn. by rewrite app_nil_r. }
  split; [reflexivity|]. split; [apply diagnostics_stderr|].
  split; [exact Hn|]. split; [by rewrite Hpost|]. split; [exact Hv|].
  intros validate_email'.
  destruct (processFile_checked_dispatch validate_email' urljoin url api
              infile url_param apiKey snooze s Hseek) as (Hq & Hw & Hval).
  cbn zeta in Hq, Hw, Hval. fold d in Hq, Hw, Hval.
  split; [by rewrite Hq, Hpost|]. split; [|exact Hval].
  rewrite Hw, !written_app, Hw2. cbn. by rewrite app_nil_r.
Qed.

(** C7, where the claim fails: two addresses and an endpoint whose
    answers are not JSON.  The input is rewound, the first address is
    asked about, the script raises, and the second address is never
    submitted. *)
Lemma C7_counterexample :
  requests (events (processFile has_at urljoin_segment base_url
                      (always (not_json 200))
                      (file [["a@example.com"]; ["b@example.com"]])
                      base_url "KEY" 10 false start)) =
    [(base_url +:+ "a@example.com",
      [("Authorization", "KEY"); ("Accept", "application/json")])] /\
  raised (processFile has_at urljoin_segment base_url (always (not_json 200))
            (file [["a@example.com"]; ["b@example.com"]])
            base_url "KEY" 10 false start) = Some JSONDecodeError /\
  events (processFile has_at urljoin_segment base_url (always (not_json 200))
            (file [["a@example.com"]; ["b@example.com"]])
            base_url "KEY" 10 false start) =
    [EvStderr (MsgScanned "recipients.csv" 2 0);
     EvSeek 0;
     EvWriteRow (DictWriter.header fList);
     EvPbarOpen 2;
     EvGet (base_url +:+ "a@example.com")
           [("Authorization", "KEY"); ("Accept", "application/json")];
     EvPbarClose].
Proof. repeat split; vm_compute; reflexivity. Qed.

(** C7 on an input whose second address the syntax check rejects. *)
Lemma C7_witness :
  seekable (file [["a@example.com"]; ["not-an-address"]]) = true /\
  exists pre post n,
    events (processFile has_at urljoin_segment base_url (always (ok []))
              (file [["a@example.com"]; ["not-an-address"]])
              base_url "KEY" 10 false start) =
      pre ++ [EvStderr (MsgScanned
                (name (file [["a@example.com"]; ["not-an-address"]]))
                (count_rows has_at
                   (drop (fpos start)
                      (rows (file [["a@example.com"]; ["not-an-address"]])))).1
                (count_rows has_at
                   (drop (fpos start)
                      (rows (file [["a@example.com"]; ["not-an-address"]])))).2);
              EvSeek 0] ++ post /\
    Forall (fun e => is_stderr e = true) pre /\
    n <= length (concat (rows (file [["a@example.com"]; ["not-an-address"]]))) /\
    requests post =
      map (request_for urljoin_segment base_url "KEY")
          (take n (concat (rows (file [["a@example.com"];
                                       ["not-an-address"]])))) /\
    (value (processFile has_at urljoin_segment base_url (always (ok []))
              (file [["a@example.com"]; ["not-an-address"]])
              base_url "KEY" 10 false start) = inr tt ->
     n = length (concat (rows (file [["a@example.com"];
                                     ["not-an-address"]])))) /\
    forall validate_email' : string -> option string,
      requests (events (processFile validate_email' urljoin_segment base_url
                          (always (ok []))
                          (file [["a@example.com"]; ["not-an-address"]])
                          base_url "KEY" 10 false start)) =
        requests post /\
      written (events (processFile validate_email' urljoin_segment base_url
                         (always (ok []))
                         (file [["a@example.com"]; ["not-an-address"]])
                         base_url "KEY" 10 false start)) =
        written post /\
      value (processFile validate_email' urljoin_segment base_url
               (always (ok []))
               (file [["a@example.com"]; ["not-an-address"]])
               base_url "KEY" 10 false start) =
        value (processFile has_at urljoin_segment base_url (always (ok []))
                 (file [["a@example.com"]; ["not-an-address"]])
                 base_url "KEY" 10 false start).
Proof.
  split; [reflexivity|].
  exact (C7_precheck_rewinds_and_never_filters has_at urljoin_segment
           base_url (always (ok []))
           (file [["a@example.com"]; ["not-an-address"]])
           base_url "KEY" 10%Z start eq_refl).
Defined.

(** Appending to the same string. *)
Lemma append_cancel (p a b : string) : p +:+ a = p +:+ b -> a = b.
Proof.
  induction p as [|c p IH]; simpl; [done|].
  intros [= H]. by apply IH.
Qed.

(** C9, where the claim fails: the field [a?b@example.com] goes into the
    URL as it was read (every character of this URL is one the HTTP
    library sends as it is), while percent-encoding it gives
    [a%3Fb%40example.com], or [a%3Fb@example.com] when every character
    that may stand in a path is left alone; and no encoding that leaves
    no [?] behind gives the URL of the request. *)
Lemma C9_counterexample :
  requests (events (validate_field urljoin_segment base_url (always (ok []))
                      fList "KEY" "a?b@example.com" start)) =
    [(base_url +:+ "a?b@example.com",
      [("Authorization", "KEY"); ("Accept", "application/json")])] /\
  percent_encode "a?b@example.com" = "a%3Fb%40example.com" /\
  percent_encode_lenient "a?b@example.com" = "a%3Fb@example.com" /\
  (forall enc : string -> string,
      occurs_in "?" (enc "a?b@example.com") = false ->
      urljoin_segment base_url (enc "a?b@example.com") <>
        base_url +:+ "a?b@example.com").
Proof.
  split; [vm_compute; reflexivity|].
  split; [vm_compute; reflexivity|].
  split; [vm_compute; reflexivity|].
  intros enc Henc Heq. apply append_cancel in Heq.
  rewrite Heq in Henc. vm_compute in Henc. discriminate.
Qed.



(** ** The further properties on concrete runs *)

(** Three fields in two rows and a blank row, the first answer a 503. *)
Lemma returning_run_witness :
  value (processFile has_at urljoin_segment base_url
      (answers [status_only 503] (ok []))
      (file [["a@example.com"; "b@example.com"]; []; ["c@example.com"]])
      base_url "KEY" 10 false start) =
    inr tt /\
  length (requests (events
    (processFile has_at urljoin_segment base_url
      (answers [status_only 503] (ok []))
      (file [["a@example.com"; "b@example.com"]; []; ["c@example.com"]])
      base_url "KEY" 10 false start))) = 3 /\
  progress (events
    (processFile has_at urljoin_segment base_url
      (answers [status_only 503] (ok []))
      (file [["a@example.com"; "b@example.com"]; []; ["c@example.com"]])
      base_url "KEY" 10 false start)) = 2 /\
  sleeps (events
    (processFile has_at urljoin_segment base_url
      (answers [status_only 503] (ok []))
      (file [["a@example.com"; "b@example.com"]; []; ["c@example.com"]])
      base_url "KEY" 10 false start)) = [10%Z] /\
  final (processFile has_at urljoin_segment base_url
      (answers [status_only 503] (ok []))
      (file [["a@example.com"; "b@example.com"]; []; ["c@example.com"]])
      base_url "KEY" 10 false start) =
    State 3 3.
Proof.
  assert (value (processFile has_at urljoin_segment base_url
      (answers [status_only 503] (ok []))
      (file [["a@example.com"; "b@example.com"]; []; ["c@example.com"]])
      base_url "KEY" 10 false start) = inr tt) as Hv
    by (vm_compute; reflexivity).
  destruct (returning_run_accounts_for_every_field has_at urljoin_segment
              base_url (answers [status_only 503] (ok []))
              (file [["a@example.com"; "b@example.com"]; [];
                     ["c@example.com"]])
              base_url "KEY" 10 false start Hv)
    as (Hreq & _ & _ & _ & Hfin).
  split; [exact Hv|]. split; [exact Hreq|].
  split; [vm_compute; reflexivity|]. split; [vm_compute; reflexivity|].
  exact Hfin.
Defined.

(** A good row, a rejected address, a blank row and a row of two
    fields: one OK and three bad, one diagnostic and the report. *)
Lemma precheck_counts_witness :
  value (precheck has_at
           (file [["a@example.com"]; ["nope"]; []; ["x@y.com"; "z@y.com"]])
           start) = inr (1, 3) /\
  1 + 3 =
    length (drop (fpos start)
              (rows (file [["a@example.com"]; ["nope"]; [];
                           ["x@y.com"; "z@y.com"]]))) /\
  length (stderr (events (precheck has_at
            (file [["a@example.com"]; ["nope"]; []; ["x@y.com"; "z@y.com"]])
            start))) +
    length (List.filter malformed
              (drop (fpos start)
                 (rows (file [["a@example.com"]; ["nope"]; [];
                              ["x@y.com"; "z@y.com"]])))) = 4.
Proof.
  assert (value (precheck has_at
                   (file [["a@example.com"]; ["nope"]; [];
                          ["x@y.com"; "z@y.com"]]) start) = inr (1, 3)) as Hv
    by (vm_compute; reflexivity).
  split; [exact Hv|].
  exact (precheck_counts_every_row has_at
           (file [["a@example.com"]; ["nope"]; []; ["x@y.com"; "z@y.com"]])
           start 1 3 Hv).
Defined.

(** The rejected address of the second line gets its diagnostic. *)
Lemma precheck_diagnostics_witness :
  EvStderr (MsgInvalid 2 "nope"
              "The email address is not valid. It must have exactly one @-sign.")
    ∈ events (precheck has_at
                (file [["a@example.com"]; ["nope"]; []]) start).
Proof.
  apply (proj2 (precheck_diagnostics has_at
                  (file [["a@example.com"]; ["nope"]; []]) start 2 "nope"
                  "The email address is not valid. It must have exactly one @-sign.")).
  exists 1. repeat split.
Defined.

(** A run that returns, and a run that a body that is not JSON ends. *)
Lemma run_closes_witness :
  (value (processFile has_at urljoin_segment base_url (always (ok []))
      (file [["a@example.com"]])
      base_url "KEY" 10 false start) = inr tt /\
   exists tr,
     events (processFile has_at urljoin_segment base_url (always (ok []))
      (file [["a@example.com"]])
      base_url "KEY" 10 false start) = tr ++ closing /\
     Forall (fun e => is_closing e = false) tr) /\
  (value (processFile has_at urljoin_segment base_url (always (not_json 200))
      (file [["a@example.com"]])
      base_url "KEY" 10 false start) =
     inl JSONDecodeError /\
   Forall (fun e => is_closing e = false)
          (events (processFile has_at urljoin_segment base_url (always (not_json 200))
      (file [["a@example.com"]])
      base_url "KEY" 10 false start)) /\
   last (events (processFile has_at urljoin_segment base_url (always (not_json 200))
      (file [["a@example.com"]])
      base_url "KEY" 10 false start)) =
     Some EvPbarClose).
Proof.
  assert (value (processFile has_at urljoin_segment base_url (always (ok []))
      (file [["a@example.com"]])
      base_url "KEY" 10 false start) = inr tt)
    as Hok by (vm_compute; reflexivity).
  assert (value (processFile has_at urljoin_segment base_url (always (not_json 200))
      (file [["a@example.com"]])
      base_url "KEY" 10 false start) =
            inl JSONDecodeError) as Hbad by (vm_compute; reflexivity).
  split.
  - split; [exact Hok|].
    exact (proj1 (run_closes_only_when_it_returns has_at urljoin_segment
                    base_url (always (ok [])) (file [["a@example.com"]])
                    base_url "KEY" 10 false start) Hok).
  - split; [exact Hbad|].
    destruct (proj2 (run_closes_only_when_it_returns has_at urljoin_segment
                       base_url (always (not_json 200))
                       (file [["a@example.com"]])
                       base_url "KEY" 10 false start) _ Hbad) as [Hnone Hlast].
    split; [exact Hnone|]. apply Hlast. reflexivity.
Defined.

(** [--email x@y.com --skip_precheck] *)
Lemma main_with_skip_precheck_witness :
  args_skip_precheck (Args (pipe []) (Some "x@y.com") true) = true /\
  main has_at urljoin_segment (module_url with_scheme no_env)
      (always (ok [])) with_scheme no_env plain_rows
      (Args (pipe []) (Some "x@y.com") true) start =
    Res [EvStderr MsgSkipping; EvWriteRow (DictWriter.header fList)] start
        (inl (UnboundLocalError "count_ok")).
Proof.
  split; [reflexivity|].
  apply (main_with_skip_precheck_raises has_at urljoin_segment
           (module_url with_scheme no_env) (always (ok []))
           with_scheme no_env plain_rows). reflexivity.
Defined.

(** [--email x@y.com,nope], the host left to its default. *)
Lemma main_requests_witness :
  module_url with_scheme no_env = module_url with_scheme no_env /\
  requests (events (main has_at urljoin_segment (module_url with_scheme no_env)
      (always (ok [])) with_scheme no_env plain_rows
      (Args (pipe []) (Some "x@y.com,nope") false) start)) =
    [("https://api.sparkpost.com/api/v1/recipient-validation/single/x@y.com",
      [("Authorization", EmptyString); ("Accept", "application/json")]);
     ("https://api.sparkpost.com/api/v1/recipient-validation/single/nope",
      [("Authorization", EmptyString); ("Accept", "application/json")])] /\
  Forall (fun r => exists i,
            r = (urljoin_segment
                   (with_scheme (no_env "SPARKPOST_HOST" "api.sparkpost.com")
                    +:+ "/api/v1/recipient-validation/single/") i,
                 [("Authorization", EmptyString);
                  ("Accept", "application/json")]))
         (requests (events (main has_at urljoin_segment (module_url with_scheme no_env)
      (always (ok [])) with_scheme no_env plain_rows
      (Args (pipe []) (Some "x@y.com,nope") false) start))).
Proof.
  split; [reflexivity|]. split; [vm_compute; reflexivity|].
  apply (main_requests_carry_no_key has_at urljoin_segment
           (module_url with_scheme no_env) (always (ok []))
           with_scheme no_env plain_rows). reflexivity.
Defined.

(** [--email x@y.com,nope] and an empty [--email]. *)
Lemma main_email_witness :
  (value (main has_at urljoin_segment (module_url with_scheme no_env)
      (always (ok [])) with_scheme no_env plain_rows
      (Args (pipe []) (Some "x@y.com,nope") false) start) = inr tt /\
   requests (events (main has_at urljoin_segment (module_url with_scheme no_env)
      (always (ok [])) with_scheme no_env plain_rows
      (Args (pipe []) (Some "x@y.com,nope") false) start)) =
     map (request_for urljoin_segment (module_url with_scheme no_env) apiKey)
         [ "x@y.com"; "nope" ] /\
   EvStderr (MsgScanned "from command line" 1 1)
     ∈ events (main has_at urljoin_segment (module_url with_scheme no_env)
      (always (ok [])) with_scheme no_env plain_rows
      (Args (pipe []) (Some "x@y.com,nope") false) start)) /\
  main has_at urljoin_segment (module_url with_scheme no_env)
      (always (ok [])) with_scheme no_env plain_rows
      (Args (file [["a@example.com"]]) (Some EmptyString) false) start =
    processFile has_at urljoin_segment (module_url with_scheme no_env)
      (always (ok [])) (file [["a@example.com"]])
      (module_url with_scheme no_env) apiKey snooze false start.
Proof.
  assert (value (main has_at urljoin_segment (module_url with_scheme no_env)
      (always (ok [])) with_scheme no_env plain_rows
      (Args (pipe []) (Some "x@y.com,nope") false) start) = inr tt)
    as Hv by (vm_compute; reflexivity).
  split.
  - split; [exact Hv|].
    exact (proj1 (main_email_argument has_at urljoin_segment
                    (module_url with_scheme no_env) (always (ok []))
                    with_scheme no_env plain_rows)
                 (Args (pipe []) (Some "x@y.com,nope") false) start
                 "x@y.com,nope" eq_refl ltac:(discriminate) eq_refl Hv).
  - apply (proj2 (main_email_argument has_at urljoin_segment
                    (module_url with_scheme no_env) (always (ok []))
                    with_scheme no_env plain_rows)).
    by right.
Defined.

(** A 200 response with the body [null]. *)
Lemma unusable_200_body_witness :
  always (Response 200 (Some PNone)) (reqno start) =
    Response 200 (Some PNone) /\
  (truthy PNone = false \/ contains "results" PNone = inr false) /\
  validate_field urljoin_segment base_url (always (Response 200 (Some PNone)))
    fList "KEY" "a@example.com" start =
    Res [EvGet (urljoin_segment base_url "a@example.com") (h "KEY");
         EvStderr (MsgErrorResponse PNone);
         EvPbarUpdate 1]
        (State 1 0) (inr tt).
Proof.
  split; [reflexivity|]. split; [by left|].
  apply (unusable_200_body_is_logged urljoin_segment base_url
           (always (Response 200 (Some PNone))) fList "KEY" "a@example.com"
           start PNone); [reflexivity|by left].
Defined.

(** An input of two blank lines. *)
Lemma blank_input_witness :
  seekable (file [[]; []]) = true /\
  fpos start = 0 /\
  Forall (fun r : list string => r = []) (rows (file [[]; []])) /\
  processFile has_at urljoin_segment base_url (always (ok []))
    (file [[]; []]) base_url "KEY" 10 false start =
    Res ([EvStderr (MsgScanned (name (file [[]; []])) 0
                      (length (rows (file [[]; []]))));
          EvSeek 0;
          EvWriteRow (DictWriter.header fList);
          EvPbarOpen 0;
          EvPbarClose] ++ closing)
        (State (reqno start) (length (rows (file [[]; []])))) (inr tt).
Proof.
  assert (Forall (fun r : list string => r = []) (rows (file [[]; []])))
    as Hblank by (by repeat constructor).
  split; [reflexivity|]. split; [reflexivity|]. split; [exact Hblank|].
  exact (blank_input_sends_nothing has_at urljoin_segment base_url
           (always (ok [])) (file [[]; []]) base_url "KEY" 10 start
           eq_refl eq_refl Hblank).
Defined.
